(** * A heading PID loop: the simulator of [pid_sim_streamlit.py]

    The class [SkidSteerPIDSimulator] is embedded as a record of its
    attributes and its three methods as functions on that record.

    Numbers.  Every Python [float] the program holds is a rational
    number; the arithmetic is taken exact, on [Q].  Results are compared
    with [==] where two fractions may denote one number, and with [=]
    where the code stores or returns the very same value.

    Effects.  [time.time()] is an input: each method that reads the
    clock takes the reading [now] as an argument.  A division by a zero
    [dt] raises [ZeroDivisionError]: [None].  The two [while] loops are
    run with fuel, and a bound computed from the loop's input is shown
    to be enough. *)

From Stdlib Require Import QArith Qround Qabs Lqa Lia ZArith List Bool Sorted.
Import ListNotations.

Open Scope Q_scope.

(** ** Python's arithmetic on exact numbers *)

Module Py.

(** [a < b] as a test *)
Definition ltb (a b : Q) : bool := negb (Qle_bool b a).

(** [max(a, b)]: the first argument unless the second is larger *)
Definition max (a b : Q) : Q := if ltb a b then b else a.

(** [min(a, b)]: the first argument unless the second is smaller *)
Definition min (a b : Q) : Q := if ltb b a then b else a.

(** [a / b] on floats raises [ZeroDivisionError] when [b] is zero *)
Definition div (a b : Q) : option Q :=
  if Qeq_bool b 0 then None else Some (a / b).

(** [a % b] on floats, for a positive [b]: the result has the sign of
    [b]; its only use is [% 360] *)
Definition mod_ (a b : Q) : Q := a - b * inject_Z (Qfloor (a / b)).

(** [l[-n:]]: the last [n] items, all of [l] when it is shorter *)
Definition last_n {A : Type} (n : nat) (l : list A) : list A :=
  skipn (length l - n) l.

End Py.

(** sequencing of computations that may raise *)
Notation "'do' x <- c ;; k" :=
  (match c with Some x => k | None => None end)
  (at level 10, x pattern, c at level 100, k at level 200).

(** ** The while loop *)

Section While.

Variable cond : Q -> bool.
Variable body : Q -> Q.

(** [while cond(x): x = body(x)], given [fuel] tests of the condition *)
Fixpoint while (fuel : nat) (x : Q) : option Q :=
  match fuel with
  | O => None
  | S fuel' => if cond x then while fuel' (body x) else Some x
  end.

End While.

(** ** The simulator *)

Record SkidSteerPIDSimulator : Type := mkSimulator {
  current_heading : Q;
  integral : Q;
  prev_error : Q;
  start_time : Q;
  simulation_running : bool;
  dt : Q;
  time_series : list Q;
  error_series : list Q;
  output_series : list Q;
  heading_series : list Q;
  desired_series : list Q;
  max_turn_rate : Q;
  vehicle_width : Q;
  kp : Q;
  ki : Q;
  kd : Q;
  desired_heading : Q
}.

(** [SkidSteerPIDSimulator.__init__], the clock reading [now] *)
Definition __init__ (now : Q) : SkidSteerPIDSimulator :=
  {| current_heading := 0;
     integral := 0;
     prev_error := 0;
     start_time := now;
     simulation_running := true;
     dt := 1 # 10;
     time_series := [];
     error_series := [];
     output_series := [];
     heading_series := [];
     desired_series := [];
     max_turn_rate := 45;
     vehicle_width := 2;
     kp := 1;
     ki := 0;
     kd := 1 # 10;
     desired_heading := 90 |}.

(** Attribute assignment, [self.f = v]: the constructor's arguments are
    the attributes in the order of the record, all kept but [f]. *)

Section Assign.

Variable s : SkidSteerPIDSimulator.

Let h := current_heading s.
Let i := integral s.
Let p := prev_error s.
Let t0 := start_time s.
Let r := simulation_running s.
Let d := dt s.
Let ts := time_series s.
Let es := error_series s.
Let os := output_series s.
Let hs := heading_series s.
Let ds := desired_series s.
Let m := max_turn_rate s.
Let w := vehicle_width s.
Let gp := kp s.
Let gi := ki s.
Let gd := kd s.
Let sp := desired_heading s.

Definition set_current_heading (v : Q) : SkidSteerPIDSimulator :=
  mkSimulator v i p t0 r d ts es os hs ds m w gp gi gd sp.

Definition set_integral (v : Q) : SkidSteerPIDSimulator :=
  mkSimulator h v p t0 r d ts es os hs ds m w gp gi gd sp.

Definition set_prev_error (v : Q) : SkidSteerPIDSimulator :=
  mkSimulator h i v t0 r d ts es os hs ds m w gp gi gd sp.

Definition set_start_time (v : Q) : SkidSteerPIDSimulator :=
  mkSimulator h i p v r d ts es os hs ds m w gp gi gd sp.

Definition set_simulation_running (v : bool) : SkidSteerPIDSimulator :=
  mkSimulator h i p t0 v d ts es os hs ds m w gp gi gd sp.

Definition set_time_series (v : list Q) : SkidSteerPIDSimulator :=
  mkSimulator h i p t0 r d v es os hs ds m w gp gi gd sp.

Definition set_error_series (v : list Q) : SkidSteerPIDSimulator :=
  mkSimulator h i p t0 r d ts v os hs ds m w gp gi gd sp.

Definition set_output_series (v : list Q) : SkidSteerPIDSimulator :=
  mkSimulator h i p t0 r d ts es v hs ds m w gp gi gd sp.

Definition set_heading_series (v : list Q) : SkidSteerPIDSimulator :=
  mkSimulator h i p t0 r d ts es os v ds m w gp gi gd sp.

Definition set_desired_series (v : list Q) : SkidSteerPIDSimulator :=
  mkSimulator h i p t0 r d ts es os hs v m w gp gi gd sp.

Definition set_kp (v : Q) : SkidSteerPIDSimulator :=
  mkSimulator h i p t0 r d ts es os hs ds m w v gi gd sp.

Definition set_ki (v : Q) : SkidSteerPIDSimulator :=
  mkSimulator h i p t0 r d ts es os hs ds m w gp v gd sp.

Definition set_kd (v : Q) : SkidSteerPIDSimulator :=
  mkSimulator h i p t0 r d ts es os hs ds m w gp gi v sp.

Definition set_desired_heading (v : Q) : SkidSteerPIDSimulator :=
  mkSimulator h i p t0 r d ts es os hs ds m w gp gi gd v.

End Assign.

(** ** The methods *)

(** [while error > 180: error -= 360] *)
Definition wrap_high : nat -> Q -> option Q :=
  while (fun e => Py.ltb 180 e) (fun e => e - 360).

(** [while error < -180: error += 360] *)
Definition wrap_low : nat -> Q -> option Q :=
  while (fun e => Py.ltb e (-180)) (fun e => e + 360).

(** the two loops of the angle wrapping, one after the other *)
Definition wrap_loops (fuel : nat) (error : Q) : option Q :=
  do error <- wrap_high fuel error ;;
  wrap_low fuel error.

(** tests of a loop condition that are enough for both loops *)
Definition loop_bound (error : Q) : nat :=
  S (Z.to_nat (Qceiling (Qabs error / 360))).

(** The wrapped error: what the loops return ([Wrap.wrap_loops_returns]
    shows that the bound is enough, and any more fuel changes nothing). *)
Definition wrap_error (error : Q) : Q :=
  match wrap_loops (loop_bound error) error with
  | Some e => e
  | None => error
  end.

(** [calculate_pid_output]: the pair returned and the simulator after
    the call.  When the division raises, the simulator is dropped. *)
Definition calculate_pid_output (s : SkidSteerPIDSimulator)
  : option (Q * Q * SkidSteerPIDSimulator) :=
  let error := desired_heading s - current_heading s in
  let error := wrap_error error in
  let s := set_integral s (integral s + error * dt s) in
  do derivative <- Py.div (error - prev_error s) (dt s) ;;
  let output := kp s * error + ki s * integral s + kd s * derivative in
  let output := Py.max (- max_turn_rate s) (Py.min (max_turn_rate s) output) in
  let s := set_prev_error s error in
  Some (output, error, s).

(** the five series cut to their last 500 items *)
Definition keep_last_500 (s : SkidSteerPIDSimulator) : SkidSteerPIDSimulator :=
  let s := set_time_series s (Py.last_n 500 (time_series s)) in
  let s := set_error_series s (Py.last_n 500 (error_series s)) in
  let s := set_output_series s (Py.last_n 500 (output_series s)) in
  let s := set_heading_series s (Py.last_n 500 (heading_series s)) in
  set_desired_series s (Py.last_n 500 (desired_series s)).

(** [update_simulation], with the clock reading [now] *)
Definition update_simulation (now : Q) (s : SkidSteerPIDSimulator)
  : option (Q * Q * SkidSteerPIDSimulator) :=
  if negb (simulation_running s) then
    let error := desired_heading s - current_heading s in
    let error := wrap_error error in
    do d <- Py.div (kd s * (error - prev_error s)) (dt s) ;;
    let output := kp s * error + ki s * integral s + d in
    let output := Py.max (- max_turn_rate s) (Py.min (max_turn_rate s) output) in
    Some (output, error, s)
  else
    do (output, error, s) <- calculate_pid_output s ;;
    let s := set_current_heading s (current_heading s + output * dt s) in
    let s := set_current_heading s (Py.mod_ (current_heading s) 360) in
    let t := now - start_time s in
    let s := set_time_series s (time_series s ++ [t]) in
    let s := set_error_series s (error_series s ++ [error]) in
    let s := set_output_series s (output_series s ++ [output]) in
    let s := set_heading_series s (heading_series s ++ [current_heading s]) in
    let s := set_desired_series s (desired_series s ++ [desired_heading s]) in
    let s := if (500 <? length (time_series s))%nat then keep_last_500 s else s in
    Some (output, error, s).

(** [reset_simulation], with the clock reading [now]; the message shown
    by [st.success] is not part of the state *)
Definition reset_simulation (now : Q) (s : SkidSteerPIDSimulator)
  : SkidSteerPIDSimulator :=
  let s := set_current_heading s 0 in
  let s := set_integral s 0 in
  let s := set_prev_error s 0 in
  let s := set_start_time s now in
  let s := set_time_series s [] in
  let s := set_error_series s [] in
  let s := set_output_series s [] in
  let s := set_heading_series s [] in
  set_desired_series s [].

(** ** The driver, [main]

    One run of the script assigns the four slider values, resets when
    the Reset button was pressed, flips [simulation_running] when
    Pause/Resume was pressed, and calls [update_simulation] once. *)

Inductive Op : Type :=
| SetParameters (kp ki kd desired_heading : Q)
| Reset (now : Q)
| PauseResume
| Tick (now : Q).

(** the four assignments after the sliders *)
Definition set_parameters (p i d h : Q) (s : SkidSteerPIDSimulator)
  : SkidSteerPIDSimulator :=
  let s := set_kp s p in
  let s := set_ki s i in
  let s := set_kd s d in
  set_desired_heading s h.

(** [simulator.simulation_running = not simulator.simulation_running] *)
Definition pause_resume (s : SkidSteerPIDSimulator) : SkidSteerPIDSimulator :=
  set_simulation_running s (negb (simulation_running s)).

(** one operation: what it returns, if anything, and the simulator after *)
Definition step (op : Op) (s : SkidSteerPIDSimulator)
  : option (option (Q * Q) * SkidSteerPIDSimulator) :=
  match op with
  | SetParameters p i d h => Some (None, set_parameters p i d h s)
  | Reset now => Some (None, reset_simulation now s)
  | PauseResume => Some (None, pause_resume s)
  | Tick now =>
      do (output, error, s) <- update_simulation now s ;;
      Some (Some (output, error), s)
  end.

(** a sequence of operations: the results in order and the last simulator *)
Fixpoint run (ops : list Op) (s : SkidSteerPIDSimulator)
  : option (list (option (Q * Q)) * SkidSteerPIDSimulator) :=
  match ops with
  | [] => Some ([], s)
  | op :: ops' =>
      do (r, s) <- step op s ;;
      do (rs, s) <- run ops' s ;;
      Some (r :: rs, s)
  end.

(** the simulators the driver can reach from a fresh one *)
Inductive reachable : SkidSteerPIDSimulator -> Prop :=
| reachable_init now : reachable (__init__ now)
| reachable_step op s r s' :
    reachable s -> step op s = Some (r, s') -> reachable s'.

(** a run of [update_simulation] calls, one per clock reading *)
Definition ticks (nows : list Q) (s : SkidSteerPIDSimulator)
  : option (list (option (Q * Q)) * SkidSteerPIDSimulator) :=
  run (map Tick nows) s.

(** two simulators that agree on every attribute but [vehicle_width] *)
Definition agree_but_width (a b : SkidSteerPIDSimulator) : Prop :=
  current_heading a = current_heading b
  /\ integral a = integral b
  /\ prev_error a = prev_error b
  /\ start_time a = start_time b
  /\ simulation_running a = simulation_running b
  /\ dt a = dt b
  /\ time_series a = time_series b
  /\ error_series a = error_series b
  /\ output_series a = output_series b
  /\ heading_series a = heading_series b
  /\ desired_series a = desired_series b
  /\ max_turn_rate a = max_turn_rate b
  /\ kp a = kp b
  /\ ki a = ki b
  /\ kd a = kd b
  /\ desired_heading a = desired_heading b.

(** what the constructor sets up and no operation of the driver breaks *)
Definition well_formed (s : SkidSteerPIDSimulator) : Prop :=
  dt s = 1 # 10
  /\ max_turn_rate s = 45
  /\ 0 <= current_heading s < 360
  /\ (length (time_series s) <= 500)%nat
  /\ length (error_series s) = length (time_series s)
  /\ length (output_series s) = length (time_series s)
  /\ length (heading_series s) = length (time_series s)
  /\ length (desired_series s) = length (time_series s).

(** ** The page, [main]

    One run of the script: the widgets are read, the four slider values
    are assigned, the two buttons are acted upon, [update_simulation] is
    called, and the numbers are put on the page.  The numbers are kept
    as they are before [f"{x:.1f}"] formats them; the chart itself and
    the half-second of [time.sleep] are left out. *)

(** what the widgets return in one run *)
Record Controls : Type := mkControls {
  kp_slider : Q;
  ki_slider : Q;
  kd_slider : Q;
  desired_slider : Q;
  reset_button : bool;
  pause_button : bool
}.

(** what one run shows *)
Record Page : Type := mkPage {
  plot_drawn : bool;
  heading_metric : Q;
  error_metric : Q;
  output_metric : Q;
  desired_metric : Q;
  proportional : Q;
  integral_term : Q;
  derivative_term : Q;
  data_points : nat;
  simulation_time : Q;
  status_running : bool
}.

(** the breakdown under "PID Components": the error is computed anew
    from the simulator as [update_simulation] left it *)
Definition pid_components (s : SkidSteerPIDSimulator) : option (Q * Q * Q) :=
  let error := desired_heading s - current_heading s in
  let error := wrap_error error in
  let p := kp s * error in
  let i := ki s * integral s in
  do d <- Py.div (kd s * (error - prev_error s)) (dt s) ;;
  Some (p, i, d).

(** [main], with the clock readings of [reset_simulation] and of
    [update_simulation] *)
Definition main (c : Controls) (reset_now update_now : Q)
  (s : SkidSteerPIDSimulator) : option (Page * SkidSteerPIDSimulator) :=
  let s := set_parameters (kp_slider c) (ki_slider c) (kd_slider c)
             (desired_slider c) s in
  let s := if reset_button c then reset_simulation reset_now s else s in
  let s := if pause_button c then pause_resume s else s in
  do (output, error, s) <- update_simulation update_now s ;;
  let plot := (1 <? length (time_series s))%nat in
  do (p, i, d) <- pid_components s ;;
  Some (mkPage plot (current_heading s) error output (desired_heading s)
          p i d (length (time_series s)) (last (time_series s) 0)
          (simulation_running s),
        s).

(** the simulator as the widgets of one run leave it, when
    [update_simulation] is about to be called *)
Definition after_controls (c : Controls) (reset_now : Q)
  (s : SkidSteerPIDSimulator) : SkidSteerPIDSimulator :=
  let s := set_parameters (kp_slider c) (ki_slider c) (kd_slider c)
             (desired_slider c) s in
  let s := if reset_button c then reset_simulation reset_now s else s in
  if pause_button c then pause_resume s else s.

(** the operations of one run of [main], in their order *)
Definition main_ops (c : Controls) (reset_now update_now : Q) : list Op :=
  SetParameters (kp_slider c) (ki_slider c) (kd_slider c) (desired_slider c)
  :: (if reset_button c then [Reset reset_now] else [])
  ++ (if pause_button c then [PauseResume] else [])
  ++ [Tick update_now].


(** Clock readings that never go back: each reading an operation takes
    is at least the one before it, [t] being the latest so far. *)
Fixpoint clock_moves_on (t : Q) (ops : list Op) : Prop :=
  match ops with
  | [] => True
  | Tick now :: ops' => t <= now /\ clock_moves_on now ops'
  | Reset now :: ops' => t <= now /\ clock_moves_on now ops'
  | _ :: ops' => clock_moves_on t ops'
  end.

(** * Properties *)

(** ** Python's arithmetic *)

Module PyFacts.

Lemma ltb_lt (a b : Q) : Py.ltb a b = true <-> a < b.
Proof.
  unfold Py.ltb. rewrite negb_true_iff, <- not_true_iff_false, Qle_bool_iff.
  split; [apply Qnot_le_lt | apply Qlt_not_le].
Qed.

Lemma ltb_ge (a b : Q) : Py.ltb a b = false <-> b <= a.
Proof.
  unfold Py.ltb. rewrite negb_false_iff. apply Qle_bool_iff.
Qed.

Lemma max_cases (a b : Q) :
  (a < b /\ Py.max a b = b) \/ (b <= a /\ Py.max a b = a).
Proof.
  unfold Py.max. destruct (Py.ltb a b) eqn:E.
  - left. split; [now apply ltb_lt | reflexivity].
  - right. split; [now apply ltb_ge | reflexivity].
Qed.

Lemma min_cases (a b : Q) :
  (b < a /\ Py.min a b = b) \/ (a <= b /\ Py.min a b = a).
Proof.
  unfold Py.min. destruct (Py.ltb b a) eqn:E.
  - left. split; [now apply ltb_lt | reflexivity].
  - right. split; [now apply ltb_ge | reflexivity].
Qed.

(** [max(-m, min(m, x))] stays within [-m, m] when [m] is not negative *)
Lemma clamp_bounds (m x : Q) :
  0 <= m -> - m <= Py.max (- m) (Py.min m x) /\ Py.max (- m) (Py.min m x) <= m.
Proof.
  intros Hm.
  destruct (max_cases (- m) (Py.min m x)) as [[H ->] | [H ->]];
    destruct (min_cases m x) as [[H' E] | [H' E]];
    rewrite ?E in *; split; lra.
Qed.


(** above the upper limit the clamp returns the limit *)
Lemma clamp_above (m x : Q) :
  0 <= m -> m < x -> Py.max (- m) (Py.min m x) == m.
Proof.
  intros Hm Hx.
  destruct (min_cases m x) as [[H' E] | [H' E]]; [lra |].
  rewrite E.
  destruct (max_cases (- m) m) as [[H E'] | [H E']]; rewrite E'; lra.
Qed.

Lemma div_defined (a b : Q) : ~ b == 0 -> Py.div a b = Some (a / b).
Proof.
  intros Hb. unfold Py.div.
  destruct (Qeq_bool b 0) eqn:E; [| reflexivity].
  apply Qeq_bool_iff in E. contradiction.
Qed.

Lemma div_raises (a b : Q) : b == 0 -> Py.div a b = None.
Proof.
  intros Hb. unfold Py.div.
  apply Qeq_bool_iff in Hb. now rewrite Hb.
Qed.

(** [a % b] lies in [0, b) for a positive [b] *)
Lemma mod_bounds (a b : Q) :
  0 < b -> 0 <= Py.mod_ a b /\ Py.mod_ a b < b.
Proof.
  intros Hb. unfold Py.mod_.
  pose proof (Qfloor_le (a / b)) as Hl.
  pose proof (Qlt_floor (a / b)) as Hu.
  rewrite inject_Z_plus in Hu.
  set (f := inject_Z (Qfloor (a / b))) in *.
  assert (Ha : a == b * (a / b)) by (field; lra).
  split.
  - assert (b * f <= b * (a / b)) by (apply Qmult_le_l; assumption).
    lra.
  - assert (b * (a / b) < b * (f + inject_Z 1))
      by (apply Qmult_lt_l; assumption).
    change (inject_Z 1) with 1 in *. lra.
Qed.

(** [a % b] differs from [a] by a multiple of [b] *)
Lemma mod_congruent (a b : Q) :
  exists k : Z, Py.mod_ a b == a + b * inject_Z k.
Proof.
  exists (- Qfloor (a / b))%Z. unfold Py.mod_.
  rewrite inject_Z_opp. ring.
Qed.

Lemma last_n_length {A : Type} (n : nat) (l : list A) :
  length (Py.last_n n l) = Nat.min n (length l).
Proof.
  unfold Py.last_n. rewrite length_skipn. lia.
Qed.

Lemma last_n_short {A : Type} (n : nat) (l : list A) :
  (length l <= n)%nat -> Py.last_n n l = l.
Proof.
  intros H. unfold Py.last_n.
  replace (length l - n)%nat with 0%nat by lia. reflexivity.
Qed.


End PyFacts.

(** ** The while loop *)

Section WhileFacts.

Variable cond : Q -> bool.
Variable body : Q -> Q.

(** a loop that returned returns the same with more fuel *)
Lemma while_more (fuel fuel' : nat) (x r : Q) :
  while cond body fuel x = Some r -> (fuel <= fuel')%nat ->
  while cond body fuel' x = Some r.
Proof.
  revert fuel' x. induction fuel as [| fuel IH]; intros fuel' x H Hle.
  - discriminate.
  - destruct fuel' as [| fuel']; [lia |].
    cbn in *. destruct (cond x); [| exact H].
    apply IH; [exact H | lia].
Qed.

(** the condition is false on the value returned *)
Lemma while_exit (fuel : nat) (x r : Q) :
  while cond body fuel x = Some r -> cond r = false.
Proof.
  revert x. induction fuel as [| fuel IH]; intros x H.
  - discriminate.
  - cbn in H. destruct (cond x) eqn:E.
    + eapply IH; eassumption.
    + now injection H as <-.
Qed.

(** the loop does nothing when the condition is false at entry *)
Lemma while_skip (fuel : nat) (x : Q) :
  cond x = false -> while cond body (S fuel) x = Some x.
Proof.
  intros H. cbn. now rewrite H.
Qed.

(** a relation to the entry value that each iteration keeps holds of
    the value returned *)
Lemma while_invariant (R : Q -> Q -> Prop) (fuel : nat) (x r : Q) :
  (forall a, R a a) ->
  (forall a b, cond a = true -> R (body a) b -> R a b) ->
  while cond body fuel x = Some r -> R x r.
Proof.
  intros Hrefl Hstep. revert x.
  induction fuel as [| fuel IH]; intros x H.
  - discriminate.
  - cbn in H. destruct (cond x) eqn:E.
    + apply Hstep; [exact E | apply IH, H].
    + injection H as <-. apply Hrefl.
Qed.

End WhileFacts.

(** ** The angle wrapping *)

Module Wrap.

Lemma inject_S (n : nat) :
  inject_Z (Z.of_nat (S n)) == inject_Z (Z.of_nat n) + 1.
Proof.
  rewrite Nat2Z.inj_succ. unfold Z.succ. rewrite inject_Z_plus. reflexivity.
Qed.

(** the first loop returns once it may test its condition more often
    than 360 fits between 180 and its input *)
Lemma high_returns (n : nat) :
  forall (x : Q) (fuel : nat),
    x <= 180 + 360 * inject_Z (Z.of_nat n) -> (n < fuel)%nat ->
    exists r, wrap_high fuel x = Some r.
Proof.
  induction n as [| n IH]; intros x fuel Hx Hfuel;
    (destruct fuel as [| fuel]; [lia |]); unfold wrap_high in *; cbn [while].
  - assert (E : Py.ltb 180 x = false).
    { apply PyFacts.ltb_ge. change (inject_Z (Z.of_nat 0)) with 0 in Hx. lra. }
    rewrite E. eauto.
  - destruct (Py.ltb 180 x); [| eauto].
    apply IH; [| lia]. rewrite inject_S in Hx. lra.
Qed.

Lemma low_returns (n : nat) :
  forall (x : Q) (fuel : nat),
    -180 - 360 * inject_Z (Z.of_nat n) <= x -> (n < fuel)%nat ->
    exists r, wrap_low fuel x = Some r.
Proof.
  induction n as [| n IH]; intros x fuel Hx Hfuel;
    (destruct fuel as [| fuel]; [lia |]); unfold wrap_low in *; cbn [while].
  - assert (E : Py.ltb x (-180) = false).
    { apply PyFacts.ltb_ge. change (inject_Z (Z.of_nat 0)) with 0 in Hx. lra. }
    rewrite E. eauto.
  - destruct (Py.ltb x (-180)); [| eauto].
    apply IH; [| lia]. rewrite inject_S in Hx. lra.
Qed.

(** what the first loop returns *)
Lemma high_spec (fuel : nat) (x r : Q) :
  wrap_high fuel x = Some r ->
  r <= 180 /\ (x <= 180 -> r = x) /\ (180 < x -> -180 < r)
  /\ exists k : Z, r == x + 360 * inject_Z k.
Proof.
  intros H. split.
  - apply while_exit in H. now apply PyFacts.ltb_ge in H.
  - revert H. apply while_invariant with
      (R := fun a b => (a <= 180 -> b = a) /\ (180 < a -> -180 < b)
                       /\ exists k : Z, b == a + 360 * inject_Z k).
    + intros a. repeat split; [lra |]. exists 0%Z. ring.
    + intros a b Ha (Hkeep & Hdown & k & Hk).
      apply PyFacts.ltb_lt in Ha. repeat split; [lra | |].
      * intros _. destruct (Qlt_le_dec 180 (a - 360)) as [Hgt | Hle].
        -- auto.
        -- rewrite (Hkeep Hle). lra.
      * exists (k - 1)%Z. rewrite Hk. unfold Z.sub.
        rewrite inject_Z_plus, inject_Z_opp. change (inject_Z 1) with 1. ring.
Qed.

(** what the second loop returns *)
Lemma low_spec (fuel : nat) (x r : Q) :
  wrap_low fuel x = Some r ->
  -180 <= r /\ (-180 <= x -> r = x) /\ (x < -180 -> r < 180)
  /\ exists k : Z, r == x + 360 * inject_Z k.
Proof.
  intros H. split.
  - apply while_exit in H. now apply PyFacts.ltb_ge in H.
  - revert H. apply while_invariant with
      (R := fun a b => (-180 <= a -> b = a) /\ (a < -180 -> b < 180)
                       /\ exists k : Z, b == a + 360 * inject_Z k).
    + intros a. repeat split; [lra |]. exists 0%Z. ring.
    + intros a b Ha (Hkeep & Hup & k & Hk).
      apply PyFacts.ltb_lt in Ha. repeat split; [lra | |].
      * intros _. destruct (Qlt_le_dec (a + 360) (-180)) as [Hlt | Hge].
        -- auto.
        -- rewrite (Hkeep Hge). lra.
      * exists (k + 1)%Z. rewrite Hk.
        rewrite inject_Z_plus. change (inject_Z 1) with 1. ring.
Qed.

(** the size of the input bounds the number of iterations *)
Lemma bound_covers (error : Q) :
  Qabs error <= 360 * inject_Z (Z.of_nat (Z.to_nat (Qceiling (Qabs error / 360)))).
Proof.
  set (q := Qabs error / 360).
  assert (Hq : Qabs error == 360 * q) by (unfold q; field).
  assert (H0 : 0 <= q).
  { unfold q. apply Qle_shift_div_l; [reflexivity |].
    pose proof (Qabs_nonneg error). lra. }
  assert (Hc : (0 <= Qceiling q)%Z).
  { change 0%Z with (Qceiling 0). now apply Qceiling_resp_le. }
  rewrite Z2Nat.id by exact Hc.
  pose proof (Qle_ceiling q). lra.
Qed.

(** Both loops return within [loop_bound] tests, and what they return
    is [wrap_error]. *)
Lemma wrap_loops_returns (error : Q) (fuel : nat) :
  (loop_bound error <= fuel)%nat ->
  wrap_loops fuel error = Some (wrap_error error).
Proof.
  intros Hfuel.
  pose proof (bound_covers error) as Hb.
  pose proof (Qle_Qabs error) as Hup.
  assert (Hdown : - Qabs error <= error).
  { pose proof (Qle_Qabs (- error)) as H. rewrite Qabs_opp in H. lra. }
  set (n := Z.to_nat (Qceiling (Qabs error / 360))) in *.
  destruct (high_returns n error (S n)) as [r1 H1]; [lra | lia |].
  destruct (high_spec _ _ _ H1) as (_ & Hkeep & Hgt & _).
  destruct (low_returns n r1 (S n)) as [r2 H2]; [| lia |].
  { destruct (Qlt_le_dec 180 error) as [Hlt | Hle].
    - specialize (Hgt Hlt). lra.
    - rewrite (Hkeep Hle). lra. }
  assert (E : wrap_error error = r2).
  { unfold wrap_error, wrap_loops, loop_bound. fold n.
    now rewrite H1, H2. }
  rewrite E. unfold wrap_loops.
  unfold loop_bound in Hfuel. fold n in Hfuel.
  unfold wrap_high in *. rewrite (while_more _ _ _ _ _ _ H1 Hfuel).
  unfold wrap_low in *. exact (while_more _ _ _ _ _ _ H2 Hfuel).
Qed.

(** The wrapped error lies in the closed interval [-180, 180] and
    differs from the raw error by a multiple of 360. *)
Lemma wrap_error_spec (error : Q) :
  -180 <= wrap_error error /\ wrap_error error <= 180
  /\ exists k : Z, wrap_error error == error + 360 * inject_Z k.
Proof.
  pose proof (wrap_loops_returns error (loop_bound error) (le_n _)) as H.
  unfold wrap_loops in H.
  destruct (wrap_high (loop_bound error) error) as [r1 |] eqn:H1; [| discriminate].
  destruct (high_spec _ _ _ H1) as (Hle & _ & _ & k1 & Hk1).
  destruct (low_spec _ _ _ H) as (Hge & Hkeep & Hlt & k2 & Hk2).
  repeat split; [exact Hge | |].
  - destruct (Qlt_le_dec r1 (-180)) as [Hr | Hr].
    + specialize (Hlt Hr). lra.
    + rewrite (Hkeep Hr). exact Hle.
  - exists (k1 + k2)%Z. rewrite Hk2, Hk1, inject_Z_plus. ring.
Qed.

(** an error already within [-180, 180] is returned as it is *)
Lemma wrap_error_inside (error : Q) :
  -180 <= error -> error <= 180 -> wrap_error error = error.
Proof.
  intros Hge Hle.
  pose proof (wrap_loops_returns error (loop_bound error) (le_n _)) as H.
  unfold wrap_loops in H.
  destruct (wrap_high (loop_bound error) error) as [r1 |] eqn:H1; [| discriminate].
  destruct (high_spec _ _ _ H1) as (_ & Hkeep1 & _).
  destruct (low_spec _ _ _ H) as (_ & Hkeep2 & _).
  rewrite (Hkeep1 Hle) in *. now apply Hkeep2.
Qed.

(** a raw error above -180 is wrapped to a value above -180 *)
Lemma wrap_error_open (error : Q) :
  -180 < error -> -180 < wrap_error error.
Proof.
  intros Hgt.
  pose proof (wrap_loops_returns error (loop_bound error) (le_n _)) as H.
  unfold wrap_loops in H.
  destruct (wrap_high (loop_bound error) error) as [r1 |] eqn:H1; [| discriminate].
  destruct (high_spec _ _ _ H1) as (_ & Hkeep1 & Hdown & _).
  destruct (low_spec _ _ _ H) as (_ & Hkeep2 & _).
  assert (Hr1 : -180 < r1).
  { destruct (Qlt_le_dec 180 error) as [Hlt | Hle]; [auto |].
    now rewrite (Hkeep1 Hle). }
  rewrite Hkeep2 by lra. exact Hr1.
Qed.

End Wrap.

(** ** One call of [update_simulation] *)

(** The attribute assignments of a simulator given by its attributes,
    carried out one after the other. *)
Ltac assignments :=
  cbv beta iota zeta delta
    [reset_simulation set_parameters pause_resume keep_last_500
     set_current_heading set_integral set_prev_error set_start_time
     set_simulation_running set_time_series set_error_series
     set_output_series set_heading_series set_desired_series
     set_kp set_ki set_kd set_desired_heading
     current_heading integral prev_error start_time simulation_running dt
     time_series error_series output_series heading_series desired_series
     max_turn_rate vehicle_width kp ki kd desired_heading].

(** the same in the hypotheses *)
Ltac attributes_in_hyps :=
  cbv beta iota zeta delta
    [current_heading integral prev_error start_time simulation_running dt
     time_series error_series output_series heading_series desired_series
     max_turn_rate vehicle_width kp ki kd desired_heading] in *.

(** [calculate_pid_output] returns, and what it leaves behind *)
Lemma calculate_pid_output_returns (s : SkidSteerPIDSimulator) :
  ~ dt s == 0 ->
  let error := wrap_error (desired_heading s - current_heading s) in
  let acc := integral s + error * dt s in
  let raw := kp s * error + ki s * acc
             + kd s * ((error - prev_error s) / dt s) in
  calculate_pid_output s
  = Some (Py.max (- max_turn_rate s) (Py.min (max_turn_rate s) raw), error,
          mkSimulator (current_heading s) acc error (start_time s)
            (simulation_running s) (dt s)
            (time_series s) (error_series s) (output_series s)
            (heading_series s) (desired_series s)
            (max_turn_rate s) (vehicle_width s)
            (kp s) (ki s) (kd s) (desired_heading s)).
Proof.
  destruct s. unfold calculate_pid_output. assignments. intros Hdt.
  rewrite PyFacts.div_defined by exact Hdt. reflexivity.
Qed.

(** a paused call returns the would-be pair and the simulator as it was *)
Lemma paused_tick (now : Q) (s : SkidSteerPIDSimulator) :
  ~ dt s == 0 -> simulation_running s = false ->
  let error := wrap_error (desired_heading s - current_heading s) in
  let raw := kp s * error + ki s * integral s
             + kd s * (error - prev_error s) / dt s in
  update_simulation now s
  = Some (Py.max (- max_turn_rate s) (Py.min (max_turn_rate s) raw), error, s).
Proof.
  intros Hdt Hrun. unfold update_simulation. rewrite Hrun. cbv beta iota zeta.
  cbn [negb]. rewrite PyFacts.div_defined by exact Hdt. reflexivity.
Qed.

(** a running call: the pair returned and every attribute afterwards *)
Lemma running_tick (now : Q) (s : SkidSteerPIDSimulator) :
  ~ dt s == 0 -> simulation_running s = true ->
  let error := wrap_error (desired_heading s - current_heading s) in
  let acc := integral s + error * dt s in
  let raw := kp s * error + ki s * acc
             + kd s * ((error - prev_error s) / dt s) in
  let output := Py.max (- max_turn_rate s) (Py.min (max_turn_rate s) raw) in
  let heading := Py.mod_ (current_heading s + output * dt s) 360 in
  let t := now - start_time s in
  let cut (l : list Q) :=
    if (500 <? length (time_series s ++ [t]))%nat then Py.last_n 500 l else l in
  update_simulation now s
  = Some (output, error,
          mkSimulator heading acc error (start_time s) true (dt s)
            (cut (time_series s ++ [t]))
            (cut (error_series s ++ [error]))
            (cut (output_series s ++ [output]))
            (cut (heading_series s ++ [heading]))
            (cut (desired_series s ++ [desired_heading s]))
            (max_turn_rate s) (vehicle_width s)
            (kp s) (ki s) (kd s) (desired_heading s)).
Proof.
  intros Hdt Hrun. unfold update_simulation. rewrite Hrun. cbn [negb].
  rewrite (calculate_pid_output_returns s Hdt).
  destruct s. attributes_in_hyps. subst. assignments.
  match goal with
  | |- context [(500 <? ?n)%nat] => destruct (500 <? n)%nat
  end; reflexivity.
Qed.

(** ** What the driver can reach *)

Section Reach.

Lemma well_formed_dt (s : SkidSteerPIDSimulator) :
  well_formed s -> ~ dt s == 0.
Proof.
  intros (Hdt & _). rewrite Hdt. discriminate.
Qed.

Lemma init_well_formed (now : Q) : well_formed (__init__ now).
Proof.
  unfold well_formed. cbn. repeat split; try lra; lia.
Qed.

(** the length of a series after a running call: the test is made on
    [time_series], whose length the other four share *)
Lemma cut_length (n : nat) (l : list Q) (x : Q) :
  length l = n -> (n <= 500)%nat ->
  length (if (500 <? S n)%nat then Py.last_n 500 (l ++ [x]) else l ++ [x])
  = Nat.min 500 (S n).
Proof.
  intros Hl Hn.
  destruct (Nat.ltb_spec 500 (S n));
    rewrite ?PyFacts.last_n_length, length_app; cbn [length]; lia.
Qed.

Lemma update_simulation_well_formed (now : Q) (s : SkidSteerPIDSimulator) :
  well_formed s ->
  exists output error s',
    update_simulation now s = Some (output, error, s') /\ well_formed s'.
Proof.
  intros Hwf. pose proof (well_formed_dt s Hwf) as Hdt.
  destruct (simulation_running s) eqn:Hrun.
  - rewrite (running_tick now s Hdt Hrun). do 3 eexists. split; [reflexivity |].
    destruct Hwf as (Hd & Hm & Hh & Hlen & He & Ho & Hhs & Hds).
    unfold well_formed. cbn -[Nat.ltb Py.last_n Py.mod_].
    rewrite length_app. cbn [length]. rewrite Nat.add_1_r.
    rewrite !cut_length by (assumption || lia).
    repeat split; try assumption; try lia;
      apply PyFacts.mod_bounds; reflexivity.
  - rewrite (paused_tick now s Hdt Hrun). eauto.
Qed.

Lemma step_well_formed (op : Op) (s : SkidSteerPIDSimulator) :
  well_formed s ->
  exists r s', step op s = Some (r, s') /\ well_formed s'.
Proof.
  intros Hwf. destruct op as [p i d h | now | | now]; cbn [step].
  - do 2 eexists. split; [reflexivity |]. exact Hwf.
  - do 2 eexists. split; [reflexivity |].
    destruct Hwf as (Hd & Hm & _). destruct s. unfold well_formed.
    attributes_in_hyps. assignments.
    repeat split; try assumption; try lra; cbn [length]; lia.
  - do 2 eexists. split; [reflexivity |]. exact Hwf.
  - destruct (update_simulation_well_formed now s Hwf)
      as (output & error & s' & E & Hwf').
    rewrite E. eauto.
Qed.

(** every reachable simulator is well formed *)
Lemma reachable_well_formed (s : SkidSteerPIDSimulator) :
  reachable s -> well_formed s.
Proof.
  induction 1 as [now | op s r s' _ IH E].
  - apply init_well_formed.
  - destruct (step_well_formed op s IH) as (r0 & s0 & E0 & Hwf).
    rewrite E in E0. now injection E0 as _ <-.
Qed.

(** no operation raises on a reachable simulator *)
Lemma step_returns (op : Op) (s : SkidSteerPIDSimulator) :
  reachable s -> exists r s', step op s = Some (r, s') /\ reachable s'.
Proof.
  intros Hr.
  destruct (step_well_formed op s (reachable_well_formed s Hr))
    as (r & s' & E & _).
  exists r, s'. split; [exact E |]. eapply reachable_step; eassumption.
Qed.

(** nor does a sequence of operations *)
Lemma run_returns (ops : list Op) :
  forall s, reachable s ->
  exists rs s', run ops s = Some (rs, s') /\ reachable s'
                /\ length rs = length ops.
Proof.
  induction ops as [| op ops IH]; intros s Hr; cbn [run].
  - exists [], s. auto.
  - destruct (step_returns op s Hr) as (r & s1 & E & Hr1). rewrite E.
    destruct (IH s1 Hr1) as (rs & s' & E' & Hr' & Hlen). rewrite E'.
    exists (r :: rs), s'. cbn [length]. auto.
Qed.

End Reach.

(** * The claims *)

(** ** C1: the output returned stays within the turn rate limit *)

(** C1.  On every simulator the driver can reach, running or paused, a
    call of [update_simulation] returns, and the output it returns lies
    between [-max_turn_rate] and [max_turn_rate], which is 45. *)
Theorem output_within_limit (now : Q) (s : SkidSteerPIDSimulator) :
  reachable s ->
  exists output error s',
    update_simulation now s = Some (output, error, s')
    /\ max_turn_rate s = 45
    /\ - max_turn_rate s <= output /\ output <= max_turn_rate s.
Proof.
  intros Hr. pose proof (reachable_well_formed s Hr) as Hwf.
  pose proof (well_formed_dt s Hwf) as Hdt.
  destruct Hwf as (_ & Hm & _).
  assert (H0 : 0 <= max_turn_rate s) by (rewrite Hm; discriminate).
  destruct (simulation_running s) eqn:Hrun.
  - rewrite (running_tick now s Hdt Hrun). do 3 eexists.
    split; [reflexivity |]. split; [exact Hm |].
    now apply PyFacts.clamp_bounds.
  - rewrite (paused_tick now s Hdt Hrun). do 3 eexists.
    split; [reflexivity |]. split; [exact Hm |].
    now apply PyFacts.clamp_bounds.
Qed.

Lemma output_within_limit_witness :
  reachable (__init__ 0)
  /\ exists output error s',
       update_simulation 1 (__init__ 0) = Some (output, error, s')
       /\ max_turn_rate (__init__ 0) = 45
       /\ - max_turn_rate (__init__ 0) <= output
       /\ output <= max_turn_rate (__init__ 0).
Proof.
  split; [apply reachable_init |].
  apply (output_within_limit 1 (__init__ 0)). apply reachable_init.
Defined.

(** ** C2: the interval of the wrapped error *)


(** The driver reaches it with the default gains: with the setpoint at
    270 two running calls turn the heading from 0 down to 355.5 and to
    351; with the setpoint moved to 171 the next call returns the error
    171 - 351 = -180. *)
Lemma wrapped_error_minus_180_reachable :
  exists s, reachable s
    /\ exists output error s',
         update_simulation 3 s = Some (output, error, s')
         /\ error == -180.
Proof.
  pose (ops := [SetParameters 1 0 (1 # 10) 270; Tick 1; Tick 2;
                SetParameters 1 0 (1 # 10) 171]).
  destruct (run_returns ops (__init__ 0) (reachable_init 0))
    as (rs & s & E & Hr & _).
  exists s. split; [exact Hr |].
  vm_compute in E. injection E as _ <-.
  do 3 eexists. split; [vm_compute; reflexivity |].
  vm_compute. reflexivity.
Qed.


(** ** C3: wrapping moves the error by whole turns only *)

(** C3.  The current heading plus the wrapped error is the desired
    heading up to a multiple of 360; from 350 to 10 the wrapped error is
    20 and not -340. *)
Theorem wrapped_error_congruent :
  (forall current desired : Q,
      exists k : Z,
        current + wrap_error (desired - current)
        == desired + 360 * inject_Z k)
  /\ wrap_error (10 - 350) == 20
  /\ ~ wrap_error (10 - 350) == -340.
Proof.
  split; [| split].
  - intros current desired.
    destruct (Wrap.wrap_error_spec (desired - current)) as (_ & _ & k & Hk).
    exists k. rewrite Hk. ring.
  - vm_compute. reflexivity.
  - vm_compute. discriminate.
Qed.

(** ** C4: the heading stays in [0, 360) *)




(** ** C5: a paused call changes nothing *)

(** C5.  With [simulation_running] false, any number of calls of
    [update_simulation] leaves the simulator exactly as it was, the
    history included, and each call returns the pair computed from the
    current heading, the setpoint, the gains and the stored integral
    and previous error. *)
Theorem paused_ticks_change_nothing
  (nows : list Q) (s : SkidSteerPIDSimulator) :
  simulation_running s = false -> ~ dt s == 0 ->
  let error := wrap_error (desired_heading s - current_heading s) in
  let raw := kp s * error + ki s * integral s
             + kd s * (error - prev_error s) / dt s in
  let output := Py.max (- max_turn_rate s) (Py.min (max_turn_rate s) raw) in
  ticks nows s = Some (map (fun _ => Some (output, error)) nows, s).
Proof.
  intros Hrun Hdt error raw output. unfold ticks.
  induction nows as [| now nows IH]; cbn [map run step].
  - reflexivity.
  - rewrite (paused_tick now s Hdt Hrun). fold error raw output.
    now rewrite IH.
Qed.

Lemma paused_ticks_change_nothing_witness :
  let s := pause_resume (__init__ 0) in
  simulation_running s = false /\ ~ dt s == 0
  /\ ticks [1; 2; 3] s
     = Some ([Some (45, 90); Some (45, 90); Some (45, 90)], s).
Proof.
  intros s. split; [reflexivity |]. split; [discriminate |].
  exact (paused_ticks_change_nothing [1; 2; 3] s eq_refl
           (Qeq_bool_neq (1 # 10) 0 eq_refl)).
Defined.

(** ** C6: the history holds the last 500 samples *)

(** a reachable running simulator can be run on until its history holds
    any number of samples up to 500 *)
Lemma history_grows (n : nat) :
  forall s, reachable s -> simulation_running s = true ->
  exists s', reachable s' /\ simulation_running s' = true
             /\ length (time_series s')
                = Nat.min 500 (length (time_series s) + n).
Proof.
  induction n as [| n IH]; intros s Hr Hrun.
  - exists s. destruct (reachable_well_formed s Hr) as (_ & _ & _ & Hlen & _).
    repeat split; try assumption. lia.
  - pose proof (reachable_well_formed s Hr) as Hwf.
    pose proof (running_tick 0 s (well_formed_dt s Hwf) Hrun) as E.
    cbv zeta in E.
    match type of E with _ = Some (?o, ?e, ?s1) =>
      assert (H1 : reachable s1)
        by (apply (reachable_step (Tick 0) s (Some (o, e)) s1 Hr);
            cbn [step]; now rewrite E);
      destruct (IH s1 H1 eq_refl) as (s' & Hr' & Hrun' & Hlen')
    end.
    exists s'. repeat split; try assumption.
    rewrite Hlen'. cbn -[Nat.ltb Py.last_n Nat.min].
    destruct Hwf as (_ & _ & _ & Hlen & _).
    rewrite length_app. cbn [length]. rewrite Nat.add_1_r.
    rewrite (cut_length (length (time_series s))) by (reflexivity || lia).
    lia.
Qed.

(** the driver reaches a running simulator with a full history *)
Lemma full_history_reachable :
  exists s, reachable s /\ simulation_running s = true
            /\ length (time_series s) = 500%nat.
Proof.
  destruct (history_grows 500 (__init__ 0) (reachable_init 0) eq_refl)
    as (s & Hr & Hrun & Hlen).
  exists s. repeat split; [exact Hr | exact Hrun | exact Hlen].
Qed.



(** ** C7: reset *)

(** C7.  [reset_simulation] zeroes the current heading, the integral
    and the previous error, empties the five series and restarts the
    clock at the reading it takes; gains, setpoint and the running flag
    (and [dt], the limit and the width) stay; a second reset gives the
    simulator a single reset gives. *)
Theorem reset_clears_and_is_idempotent (now : Q) (s : SkidSteerPIDSimulator) :
  let s' := reset_simulation now s in
  (current_heading s' = 0 /\ integral s' = 0 /\ prev_error s' = 0)
  /\ (time_series s' = [] /\ error_series s' = [] /\ output_series s' = []
      /\ heading_series s' = [] /\ desired_series s' = [])
  /\ (start_time s' = now /\ now - start_time s' == 0)
  /\ (kp s' = kp s /\ ki s' = ki s /\ kd s' = kd s
      /\ desired_heading s' = desired_heading s
      /\ simulation_running s' = simulation_running s
      /\ dt s' = dt s /\ max_turn_rate s' = max_turn_rate s
      /\ vehicle_width s' = vehicle_width s)
  /\ reset_simulation now s' = s'
  /\ (forall later, reset_simulation later s' = reset_simulation later s).
Proof.
  destruct s. assignments. repeat split; try reflexivity. ring.
Qed.

(** ** C8: the integral accumulates on every running call *)

(** below the lower limit the clamp returns the lower limit *)
Lemma clamp_below (m x : Q) :
  0 <= m -> x < - m -> Py.max (- m) (Py.min m x) == - m.
Proof.
  intros Hm Hx.
  destruct (PyFacts.min_cases m x) as [[H' E] | [H' E]]; [| lra].
  rewrite E.
  destruct (PyFacts.max_cases (- m) x) as [[H E'] | [H E']]; rewrite E'; lra.
Qed.

(** C8.  A running call adds exactly [error * dt] to the integral,
    whatever the output; the output is the clamp of a raw value that
    already uses the new integral, and when the raw value lies outside
    the limits the output is the limit while the integral has grown all
    the same. *)
Theorem integral_accumulates_unconditionally
  (now : Q) (s : SkidSteerPIDSimulator) :
  simulation_running s = true -> ~ dt s == 0 ->
  let error := wrap_error (desired_heading s - current_heading s) in
  let acc := integral s + error * dt s in
  let raw := kp s * error + ki s * acc
             + kd s * ((error - prev_error s) / dt s) in
  exists output s',
    update_simulation now s = Some (output, error, s')
    /\ integral s' = acc
    /\ output = Py.max (- max_turn_rate s) (Py.min (max_turn_rate s) raw)
    /\ (0 <= max_turn_rate s -> max_turn_rate s < raw ->
        output == max_turn_rate s)
    /\ (0 <= max_turn_rate s -> raw < - max_turn_rate s ->
        output == - max_turn_rate s).
Proof.
  intros Hrun Hdt error acc raw.
  rewrite (running_tick now s Hdt Hrun). do 2 eexists.
  split; [reflexivity |]. split; [reflexivity |]. split; [reflexivity |].
  split; intros Hm Hraw.
  - now apply PyFacts.clamp_above.
  - now apply clamp_below.
Qed.

Lemma integral_accumulates_unconditionally_witness :
  let s := __init__ 0 in
  simulation_running s = true /\ ~ dt s == 0
  /\ exists output s',
       update_simulation 1 s = Some (output, 90, s')
       /\ integral s' = 0 + 90 * (1 # 10)
       /\ output = 45
       /\ (0 <= 45 -> 45 < 1 * 90 + 0 * (0 + 90 * (1 # 10))
                           + (1 # 10) * ((90 - 0) / (1 # 10)) ->
           output == 45)
       /\ (0 <= 45 -> 1 * 90 + 0 * (0 + 90 * (1 # 10))
                      + (1 # 10) * ((90 - 0) / (1 # 10)) < - (45) ->
           output == - (45)).
Proof.
  intros s. split; [reflexivity |]. split; [discriminate |].
  exact (integral_accumulates_unconditionally 1 s eq_refl
           (Qeq_bool_neq (1 # 10) 0 eq_refl)).
Defined.

(** ** C9: the first call of scenario A *)

(** C9.  With dt 0.1, gains 1, 0, 0, limit 45, setpoint 90 and heading,
    integral and previous error 0, a running call returns the error 90
    and the output 45, the raw output being 90, and leaves the heading
    at 4.5. *)
Theorem scenario_A_first_tick (now : Q) (s : SkidSteerPIDSimulator) :
  dt s = 1 # 10 -> kp s = 1 -> ki s = 0 -> kd s = 0 ->
  max_turn_rate s = 45 -> desired_heading s = 90 ->
  current_heading s = 0 -> integral s = 0 -> prev_error s = 0 ->
  simulation_running s = true ->
  exists output error s',
    update_simulation now s = Some (output, error, s')
    /\ error == 90
    /\ kp s * error + ki s * integral s'
       + kd s * ((error - prev_error s) / dt s) == 90
    /\ output == 45
    /\ current_heading s' == 9 # 2.
Proof.
  intros Hdt Hkp Hki Hkd Hm Hd Hh Hi Hp Hrun.
  assert (Hnz : ~ dt s == 0) by (rewrite Hdt; discriminate).
  rewrite (running_tick now s Hnz Hrun). do 3 eexists.
  split; [reflexivity |]. cbn [current_heading integral].
  rewrite Hdt, Hkp, Hki, Hkd, Hm, Hd, Hh, Hi, Hp.
  repeat split; vm_compute; reflexivity.
Qed.

Lemma scenario_A_first_tick_witness :
  let s := set_kd (__init__ 0) 0 in
  (dt s = 1 # 10 /\ kp s = 1 /\ ki s = 0 /\ kd s = 0
   /\ max_turn_rate s = 45 /\ desired_heading s = 90
   /\ current_heading s = 0 /\ integral s = 0 /\ prev_error s = 0
   /\ simulation_running s = true)
  /\ exists output error s',
       update_simulation 1 s = Some (output, error, s')
       /\ error == 90
       /\ kp s * error + ki s * integral s'
          + kd s * ((error - prev_error s) / dt s) == 90
       /\ output == 45
       /\ current_heading s' == 9 # 2.
Proof.
  intros s. split; [repeat split |].
  exact (scenario_A_first_tick 1 s eq_refl eq_refl eq_refl eq_refl eq_refl
           eq_refl eq_refl eq_refl eq_refl eq_refl).
Defined.

(** ** C10: the vehicle width is never read *)

(** one operation treats two simulators that agree but for the width
    alike, and leaves each width alone *)
Lemma step_agree (op : Op) (a b : SkidSteerPIDSimulator) :
  agree_but_width a b ->
  match step op a, step op b with
  | Some (ra, a'), Some (rb, b') =>
      ra = rb /\ agree_but_width a' b'
      /\ vehicle_width a' = vehicle_width a
      /\ vehicle_width b' = vehicle_width b
  | None, None => True
  | _, _ => False
  end.
Proof.
  destruct a, b. unfold agree_but_width. cbn.
  intros H. decompose [and] H. subst.
  destruct op as [p i d h | now | | now]; cbn [step].
  - assignments. repeat split.
  - assignments. repeat split.
  - assignments. repeat split.
  - unfold update_simulation, calculate_pid_output.
    cbn -[Nat.ltb Py.last_n Py.div Py.max Py.min Py.mod_ wrap_error].
    destruct simulation_running1;
      cbn -[Nat.ltb Py.last_n Py.div Py.max Py.min Py.mod_ wrap_error].
    + destruct (Py.div _ _); [| exact I].
      destruct (500 <? _)%nat; assignments; repeat split.
    + destruct (Py.div _ _); [| exact I].
      cbn. repeat split.
Qed.

(** C10.  Two simulators that differ in [vehicle_width] only go through
    any sequence of operations alike: both raise or neither does, the
    results returned are the same, every other attribute is the same
    afterwards, and each keeps its width. *)
Theorem vehicle_width_is_never_read
  (ops : list Op) (a b : SkidSteerPIDSimulator) :
  agree_but_width a b ->
  match run ops a, run ops b with
  | Some (ra, a'), Some (rb, b') =>
      ra = rb /\ agree_but_width a' b'
      /\ vehicle_width a' = vehicle_width a
      /\ vehicle_width b' = vehicle_width b
  | None, None => True
  | _, _ => False
  end.
Proof.
  revert a b. induction ops as [| op ops IH]; intros a b Hab; cbn [run].
  - split; [reflexivity |]. split; [exact Hab |]. split; reflexivity.
  - pose proof (step_agree op a b Hab) as Hstep.
    destruct (step op a) as [[ra a1] |], (step op b) as [[rb b1] |];
      try contradiction; [| exact I].
    destruct Hstep as (-> & Hab1 & Hwa & Hwb).
    specialize (IH a1 b1 Hab1).
    destruct (run ops a1) as [[rsa a2] |], (run ops b1) as [[rsb b2] |];
      try contradiction; [| exact I].
    destruct IH as (-> & Hab2 & Hwa2 & Hwb2).
    split; [reflexivity |]. split; [exact Hab2 |]. split; congruence.
Qed.

Lemma vehicle_width_is_never_read_witness :
  let a := __init__ 0 in
  let b := mkSimulator 0 0 0 0 true (1 # 10) [] [] [] [] [] 45 3
             1 0 (1 # 10) 90 in
  let ops := [Tick 1; PauseResume; Tick 2; Reset 3;
              SetParameters 2 0 0 10; PauseResume; Tick 4] in
  agree_but_width a b
  /\ match run ops a, run ops b with
     | Some (ra, a'), Some (rb, b') =>
         ra = rb /\ agree_but_width a' b'
         /\ vehicle_width a' = vehicle_width a
         /\ vehicle_width b' = vehicle_width b
     | None, None => True
     | _, _ => False
     end.
Proof.
  intros a b ops.
  assert (Hab : agree_but_width a b) by (repeat split).
  split; [exact Hab |].
  exact (vehicle_width_is_never_read ops a b Hab).
Defined.

(** * Further properties *)

(** ** The wrapped error *)

Lemma inject_Z_ge_1 (m : Z) : (1 <= m)%Z -> 1 <= inject_Z m.
Proof.
  intros H. change 1 with (inject_Z 1). now rewrite <- Zle_Qle.
Qed.

Lemma inject_Z_le_m1 (m : Z) : (m <= -1)%Z -> inject_Z m <= -1.
Proof.
  intros H. change (-1) with (inject_Z (-1)). now rewrite <- Zle_Qle.
Qed.

Lemma Qabs_ge_opp (x : Q) : - x <= Qabs x.
Proof.
  rewrite <- Qabs_opp. apply Qle_Qabs.
Qed.

Lemma Qabs_within (x b : Q) : - b <= x -> x <= b -> Qabs x <= b.
Proof.
  intros Hl Hu. apply Qabs_Qle_condition. split; assumption.
Qed.

(** a value within [-180, 180] is at least as near to 0 as any value a
    whole number of turns away from it *)
Lemma nearest_turn (r : Q) (m : Z) :
  -180 <= r -> r <= 180 -> Qabs r <= Qabs (r + 360 * inject_Z m).
Proof.
  intros Hl Hu.
  pose proof (Qabs_within r 180 Hl Hu) as Hr.
  assert (Hm : (m = 0 \/ 1 <= m \/ m <= -1)%Z) by lia.
  destruct Hm as [-> | [Hm | Hm]].
  - assert (E : r + 360 * inject_Z 0 == r) by ring.
    rewrite E. apply Qle_refl.
  - apply inject_Z_ge_1 in Hm.
    pose proof (Qle_Qabs (r + 360 * inject_Z m)). lra.
  - apply inject_Z_le_m1 in Hm.
    pose proof (Qabs_ge_opp (r + 360 * inject_Z m)). lra.
Qed.

(** two values less than a turn apart that differ by whole turns are
    the same number *)
Lemma same_turn (a b : Q) (k : Z) :
  -360 < a - b -> a - b < 360 -> a == b + 360 * inject_Z k -> a == b.
Proof.
  intros Hl Hu E.
  assert (Hk : (-1 < k < 1)%Z).
  { split; rewrite Zlt_Qlt.
    - change (inject_Z (-1)) with (-1). lra.
    - change (inject_Z 1) with 1. lra. }
  assert (k = 0%Z) as -> by lia.
  rewrite E. ring.
Qed.

(** a raw error below 180 is wrapped to a value below 180 *)
Lemma wrap_error_below (error : Q) :
  error < 180 -> wrap_error error < 180.
Proof.
  intros Hlt.
  pose proof (Wrap.wrap_loops_returns error (loop_bound error) (le_n _)) as H.
  unfold wrap_loops in H.
  destruct (wrap_high (loop_bound error) error) as [r1 |] eqn:H1; [| discriminate].
  destruct (Wrap.high_spec _ _ _ H1) as (_ & Hkeep1 & _).
  destruct (Wrap.low_spec _ _ _ H) as (_ & Hkeep2 & Hup & _).
  rewrite Hkeep1 in * by lra.
  destruct (Qlt_le_dec error (-180)) as [Hl | Hl]; [auto |].
  now rewrite Hkeep2.
Qed.

(** the wrapped error is as near to 0 as any value a whole number of
    turns away from the raw error *)
Lemma wrap_error_nearest (error : Q) (k : Z) :
  Qabs (wrap_error error) <= Qabs (error + 360 * inject_Z k).
Proof.
  destruct (Wrap.wrap_error_spec error) as (Hl & Hu & j & Hj).
  assert (E : error + 360 * inject_Z k
              == wrap_error error + 360 * inject_Z (k - j)).
  { rewrite Hj. unfold Z.sub. rewrite inject_Z_plus, inject_Z_opp. ring. }
  rewrite E. now apply nearest_turn.
Qed.

(** X1.  The error [calculate_pid_output] returns is a shortest one: no
    value a whole number of turns away from desired - current is nearer
    to 0. *)
Theorem returned_error_is_shortest (k : Z) (s : SkidSteerPIDSimulator) :
  ~ dt s == 0 ->
  exists output error s',
    calculate_pid_output s = Some (output, error, s')
    /\ Qabs error
       <= Qabs (desired_heading s - current_heading s + 360 * inject_Z k).
Proof.
  intros Hdt. rewrite (calculate_pid_output_returns s Hdt).
  do 3 eexists. split; [reflexivity |]. apply wrap_error_nearest.
Qed.

Lemma returned_error_is_shortest_witness :
  let s := set_current_heading (__init__ 0) 350 in
  ~ dt s == 0
  /\ exists output error s',
       calculate_pid_output s = Some (output, error, s')
       /\ Qabs error
          <= Qabs (desired_heading s - current_heading s + 360 * inject_Z 0).
Proof.
  intros s. split; [discriminate |].
  exact (returned_error_is_shortest 0 s (Qeq_bool_neq (1 # 10) 0 eq_refl)).
Defined.

(** X2.  Wrapping a wrapped error changes nothing. *)
Theorem wrapped_error_idempotent (error : Q) :
  wrap_error (wrap_error error) = wrap_error error.
Proof.
  destruct (Wrap.wrap_error_spec error) as (Hl & Hu & _).
  now apply Wrap.wrap_error_inside.
Qed.

(** X3.  With the current and the desired heading exchanged the wrapped
    error changes its sign and nothing else. *)
Theorem wrapped_error_odd (current desired : Q) :
  wrap_error (current - desired) == - wrap_error (desired - current).
Proof.
  set (e := desired - current).
  assert (Ee : current - desired == - e) by (unfold e; ring).
  destruct (Wrap.wrap_error_spec e) as (Hl & Hu & k & Hk).
  destruct (Wrap.wrap_error_spec (current - desired)) as (Hl' & Hu' & k' & Hk').
  destruct (Qlt_le_dec 180 e) as [Hhigh | Hnothigh].
  - pose proof (Wrap.wrap_error_open e) as Ho.
    pose proof (wrap_error_below (current - desired)) as Hb.
    apply (same_turn _ _ (k' + k)); try lra.
    rewrite Hk', Hk, Ee, inject_Z_plus. ring.
  - destruct (Qlt_le_dec e (-180)) as [Hlow | Hnotlow].
    + pose proof (wrap_error_below e) as Hb.
      pose proof (Wrap.wrap_error_open (current - desired)) as Ho.
      apply (same_turn _ _ (k' + k)); try lra.
      rewrite Hk', Hk, Ee, inject_Z_plus. ring.
    + rewrite (Wrap.wrap_error_inside e) by assumption.
      rewrite (Wrap.wrap_error_inside (current - desired)) by lra.
      exact Ee.
Qed.

(** ** Calls that raise, and what a call never assigns *)

(** with a zero [dt] the division raises in either branch *)
Lemma update_simulation_raises (now : Q) (s : SkidSteerPIDSimulator) :
  dt s == 0 -> update_simulation now s = None.
Proof.
  intros Hdt. unfold update_simulation, calculate_pid_output.
  destruct s. attributes_in_hyps. assignments.
  rewrite !PyFacts.div_raises by exact Hdt.
  now destruct simulation_running0.
Qed.

(** X4.  With [dt] zero every call raises: [calculate_pid_output],
    [update_simulation] running or paused, and with it [main]. *)
Theorem zero_dt_raises
  (c : Controls) (reset_now now : Q) (s : SkidSteerPIDSimulator) :
  dt s == 0 ->
  calculate_pid_output s = None
  /\ update_simulation now s = None
  /\ main c reset_now now s = None.
Proof.
  intros Hdt. split; [| split].
  - unfold calculate_pid_output. destruct s. attributes_in_hyps. assignments.
    now rewrite PyFacts.div_raises.
  - now apply update_simulation_raises.
  - unfold main. cbv zeta.
    rewrite update_simulation_raises; [reflexivity |].
    destruct s, c. attributes_in_hyps.
    cbv beta iota delta [kp_slider ki_slider kd_slider desired_slider
                         reset_button pause_button].
    destruct reset_button0, pause_button0; assignments; exact Hdt.
Qed.

Lemma zero_dt_raises_witness :
  let s := mkSimulator 0 0 0 0 true 0 [] [] [] [] [] 45 2 1 0 (1 # 10) 90 in
  let c := mkControls 1 0 (1 # 10) 90 false false in
  dt s == 0
  /\ calculate_pid_output s = None
  /\ update_simulation 1 s = None
  /\ main c 1 1 s = None.
Proof.
  intros s c. split; [reflexivity |].
  exact (zero_dt_raises c 1 1 s (Qeq_refl 0)).
Defined.

(** X5.  A call of [update_simulation] that returns leaves the gains,
    the setpoint, [dt], the turn rate limit, the width, the start time
    and the running flag as they were. *)
Theorem update_simulation_keeps_settings (now : Q) (s : SkidSteerPIDSimulator) :
  ~ dt s == 0 ->
  exists output error s',
    update_simulation now s = Some (output, error, s')
    /\ kp s' = kp s /\ ki s' = ki s /\ kd s' = kd s
    /\ desired_heading s' = desired_heading s
    /\ dt s' = dt s /\ max_turn_rate s' = max_turn_rate s
    /\ vehicle_width s' = vehicle_width s
    /\ start_time s' = start_time s
    /\ simulation_running s' = simulation_running s.
Proof.
  intros Hdt. destruct (simulation_running s) eqn:Hrun.
  - rewrite (running_tick now s Hdt Hrun). do 3 eexists.
    split; [reflexivity |]. cbn. repeat split.
  - rewrite (paused_tick now s Hdt Hrun). do 3 eexists.
    split; [reflexivity |]. repeat split. exact Hrun.
Qed.

Lemma update_simulation_keeps_settings_witness :
  let s := __init__ 0 in
  ~ dt s == 0
  /\ exists output error s',
       update_simulation 1 s = Some (output, error, s')
       /\ kp s' = kp s /\ ki s' = ki s /\ kd s' = kd s
       /\ desired_heading s' = desired_heading s
       /\ dt s' = dt s /\ max_turn_rate s' = max_turn_rate s
       /\ vehicle_width s' = vehicle_width s
       /\ start_time s' = start_time s
       /\ simulation_running s' = simulation_running s.
Proof.
  intros s. split; [discriminate |].
  exact (update_simulation_keeps_settings 1 s (Qeq_bool_neq (1 # 10) 0 eq_refl)).
Defined.

(** ** Pausing *)

(** a sequence of operations done in two parts *)
Lemma run_app (ops1 ops2 : list Op) :
  forall s,
    run (ops1 ++ ops2) s
    = do (rs1, s1) <- run ops1 s ;;
      do (rs2, s2) <- run ops2 s1 ;;
      Some (rs1 ++ rs2, s2).
Proof.
  induction ops1 as [| op ops1 IH]; intros s; cbn [app run].
  - now destruct (run ops2 s) as [[rs2 s2] |].
  - destruct (step op s) as [[r s1] |]; [| reflexivity].
    rewrite IH.
    destruct (run ops1 s1) as [[rs1 s2] |]; [| reflexivity].
    now destruct (run ops2 s2) as [[rs2 s3] |].
Qed.

(** paused calls return and leave the simulator as it was *)
Lemma paused_run (nows : list Q) (s : SkidSteerPIDSimulator) :
  simulation_running s = false -> ~ dt s == 0 ->
  exists rs, run (map Tick nows) s = Some (rs, s)
             /\ length rs = length nows.
Proof.
  intros Hrun Hdt. induction nows as [| now nows IH]; cbn [map run step].
  - exists []. auto.
  - rewrite (paused_tick now s Hdt Hrun).
    destruct IH as (rs & -> & Hlen).
    eexists. split; [reflexivity |]. cbn [length]. now rewrite Hlen.
Qed.

Lemma pause_resume_twice (s : SkidSteerPIDSimulator) :
  pause_resume (pause_resume s) = s.
Proof.
  destruct s. assignments. now rewrite negb_involutive.
Qed.

(** X6.  Pause, any number of calls, resume: a running simulator is
    back exactly where it was, history and controller memory included. *)
Theorem pause_ticks_resume_round_trip
  (nows : list Q) (s : SkidSteerPIDSimulator) :
  simulation_running s = true -> ~ dt s == 0 ->
  exists rs,
    run (PauseResume :: map Tick nows ++ [PauseResume]) s = Some (rs, s)
    /\ length rs = (length nows + 2)%nat.
Proof.
  intros Hrun Hdt. cbn [run step].
  assert (Hp : simulation_running (pause_resume s) = false).
  { destruct s. attributes_in_hyps. subst. reflexivity. }
  assert (Hd : ~ dt (pause_resume s) == 0).
  { destruct s. exact Hdt. }
  destruct (paused_run nows (pause_resume s) Hp Hd) as (rs & E & Hlen).
  rewrite run_app, E. cbn [run step]. rewrite pause_resume_twice.
  eexists. split; [reflexivity |].
  cbn [length]. rewrite length_app. cbn [length]. lia.
Qed.

Lemma pause_ticks_resume_round_trip_witness :
  let s := __init__ 0 in
  simulation_running s = true /\ ~ dt s == 0
  /\ exists rs,
       run (PauseResume :: map Tick [1; 2; 3] ++ [PauseResume]) s
       = Some (rs, s)
       /\ length rs = (length [1; 2; 3] + 2)%nat.
Proof.
  intros s. split; [reflexivity |]. split; [discriminate |].
  exact (pause_ticks_resume_round_trip [1; 2; 3] s eq_refl
           (Qeq_bool_neq (1 # 10) 0 eq_refl)).
Defined.

(** X7.  After a reset, calls on a paused simulator leave the heading
    at 0, the controller memory at 0 and the history empty. *)
Theorem reset_then_paused_ticks
  (reset_now : Q) (nows : list Q) (s : SkidSteerPIDSimulator) :
  simulation_running s = false -> ~ dt s == 0 ->
  exists rs s',
    run (Reset reset_now :: map Tick nows) s = Some (rs, s')
    /\ s' = reset_simulation reset_now s
    /\ current_heading s' = 0 /\ integral s' = 0 /\ prev_error s' = 0
    /\ time_series s' = [] /\ error_series s' = [] /\ output_series s' = []
    /\ heading_series s' = [] /\ desired_series s' = [].
Proof.
  intros Hrun Hdt. cbn [run step].
  assert (Hp : simulation_running (reset_simulation reset_now s) = false).
  { destruct s. exact Hrun. }
  assert (Hd : ~ dt (reset_simulation reset_now s) == 0).
  { destruct s. exact Hdt. }
  destruct (paused_run nows _ Hp Hd) as (rs & E & _).
  rewrite E. do 2 eexists. split; [reflexivity |].
  destruct s. assignments. repeat split.
Qed.

Lemma reset_then_paused_ticks_witness :
  let s := pause_resume (__init__ 0) in
  simulation_running s = false /\ ~ dt s == 0
  /\ exists rs s',
       run (Reset 5 :: map Tick [6; 7]) s = Some (rs, s')
       /\ s' = reset_simulation 5 s
       /\ current_heading s' = 0 /\ integral s' = 0 /\ prev_error s' = 0
       /\ time_series s' = [] /\ error_series s' = [] /\ output_series s' = []
       /\ heading_series s' = [] /\ desired_series s' = [].
Proof.
  intros s. split; [reflexivity |]. split; [discriminate |].
  exact (reset_then_paused_ticks 5 [6; 7] s eq_refl
           (Qeq_bool_neq (1 # 10) 0 eq_refl)).
Defined.

(** ** How far a running call turns the heading *)

(** the clamp moves a value towards 0 and never across it *)
Lemma clamp_towards_zero (m x : Q) :
  0 <= m ->
  (0 <= x -> 0 <= Py.max (- m) (Py.min m x) /\ Py.max (- m) (Py.min m x) <= x)
  /\ (x <= 0 -> x <= Py.max (- m) (Py.min m x)
                /\ Py.max (- m) (Py.min m x) <= 0).
Proof.
  intros Hm.
  destruct (PyFacts.max_cases (- m) (Py.min m x)) as [[H ->] | [H ->]];
    destruct (PyFacts.min_cases m x) as [[H' E] | [H' E]];
    rewrite ?E in *; split; intros Hx; split; lra.
Qed.



(** X8.  A running call on a reachable simulator turns the heading by
    [output * dt], at most 4.5 degrees either way, and the
    normalisation adds or takes at most one whole turn. *)
Theorem turn_per_tick_bounded (now : Q) (s : SkidSteerPIDSimulator) :
  reachable s -> simulation_running s = true ->
  exists output error s' (k : Z),
    update_simulation now s = Some (output, error, s')
    /\ current_heading s'
       == current_heading s + output * dt s + 360 * inject_Z k
    /\ - (9 # 2) <= output * dt s /\ output * dt s <= 9 # 2
    /\ (-1 <= k <= 1)%Z.
Proof.
  intros Hr Hrun. pose proof (reachable_well_formed s Hr) as Hwf.
  pose proof (well_formed_dt s Hwf) as Hdt.
  destruct Hwf as (Hd & Hm & [Hh0 Hh1] & _).
  pose proof (running_tick now s Hdt Hrun) as E. cbv zeta in E.
  match type of E with _ = Some (?o, ?e, ?s1) => exists o, e, s1 end.
  cbn [current_heading].
  set (output := Py.max _ _) in *.
  assert (Hout : - max_turn_rate s <= output /\ output <= max_turn_rate s).
  { apply PyFacts.clamp_bounds. rewrite Hm. discriminate. }
  rewrite Hm in Hout.
  destruct (PyFacts.mod_congruent (current_heading s + output * dt s) 360)
    as (k & Hk).
  destruct (PyFacts.mod_bounds (current_heading s + output * dt s) 360)
    as [Hlo Hhi]; [reflexivity |].
  exists k. split; [exact E |]. clear E. split; [exact Hk |].
  rewrite Hd in *.
  split; [lra |]. split; [lra |].
  split; [apply Z.lt_pred_le | apply Z.lt_succ_r]; rewrite Zlt_Qlt.
  - change (inject_Z (Z.pred (-1))) with (-2). lra.
  - change (inject_Z (Z.succ 1)) with 2. lra.
Qed.

Lemma turn_per_tick_bounded_witness :
  let s := __init__ 0 in
  reachable s /\ simulation_running s = true
  /\ exists output error s' (k : Z),
       update_simulation 1 s = Some (output, error, s')
       /\ current_heading s'
          == current_heading s + output * dt s + 360 * inject_Z k
       /\ - (9 # 2) <= output * dt s /\ output * dt s <= 9 # 2
       /\ (-1 <= k <= 1)%Z.
Proof.
  intros s. split; [apply reachable_init |]. split; [reflexivity |].
  exact (turn_per_tick_bounded 1 s (reachable_init 0) eq_refl).
Defined.

(** X9.  Proportional control alone never makes the error larger: with
    the integral and the derivative gain at 0 and the proportional gain
    within its slider range, from 0 to 10, the error of the heading a
    running call leaves is at most as large as the error the call
    returned. *)
Theorem proportional_control_never_overshoots
  (now : Q) (s : SkidSteerPIDSimulator) :
  reachable s -> simulation_running s = true ->
  ki s == 0 -> kd s == 0 -> 0 <= kp s -> kp s <= 10 ->
  exists output error s',
    update_simulation now s = Some (output, error, s')
    /\ Qabs (wrap_error (desired_heading s' - current_heading s'))
       <= Qabs error.
Proof.
  intros Hr Hrun Hki Hkd Hkp0 Hkp1.
  pose proof (reachable_well_formed s Hr) as Hwf.
  pose proof (well_formed_dt s Hwf) as Hdt.
  destruct Hwf as (Hd & Hm & _).
  pose proof (running_tick now s Hdt Hrun) as E. cbv zeta in E.
  match type of E with _ = Some (?o, ?e, ?s1) => exists o, e, s1 end.
  split; [exact E |]. cbn [current_heading desired_heading]. clear E.
  set (error := wrap_error (desired_heading s - current_heading s)).
  set (raw := kp s * error + _ + _).
  set (output := Py.max (- max_turn_rate s) (Py.min (max_turn_rate s) raw)).
  assert (Hraw : raw == kp s * error).
  { unfold raw. rewrite Hki, Hkd. ring. }
  assert (H0 : 0 <= max_turn_rate s) by (rewrite Hm; discriminate).
  destruct (clamp_towards_zero (max_turn_rate s) raw H0) as [Hpos Hneg].
  fold output in Hpos, Hneg. rewrite Hd.
  (* the raw error left over lies between 0 and the error returned *)
  set (rest := error - output * (1 # 10)).
  assert (Hrest : (0 <= error -> 0 <= rest /\ rest <= error)
                  /\ (error <= 0 -> error <= rest /\ rest <= 0)).
  { unfold rest. split; intros He.
    - assert (0 <= kp s * error) by (apply Qmult_le_0_compat; lra).
      assert (0 <= (10 - kp s) * error) by (apply Qmult_le_0_compat; lra).
      lra.
    - assert (0 <= kp s * - error) by (apply Qmult_le_0_compat; lra).
      assert (0 <= (10 - kp s) * - error) by (apply Qmult_le_0_compat; lra).
      lra. }
  assert (Habs : Qabs rest <= Qabs error).
  { pose proof (Qle_Qabs error). pose proof (Qabs_ge_opp error).
    apply Qabs_within; destruct (Qlt_le_dec error 0); lra. }
  (* the new raw error is the rest, whole turns apart *)
  destruct (PyFacts.mod_congruent (current_heading s + output * (1 # 10)) 360)
    as (k1 & Hk1).
  destruct (Wrap.wrap_error_spec (desired_heading s - current_heading s))
    as (_ & _ & k2 & Hk2). fold error in Hk2.
  eapply Qle_trans; [apply (wrap_error_nearest _ (k1 + k2)) |].
  assert (Eq : desired_heading s
               - Py.mod_ (current_heading s + output * (1 # 10)) 360
               + 360 * inject_Z (k1 + k2) == rest).
  { unfold rest. rewrite Hk1, Hk2, inject_Z_plus. ring. }
  rewrite Eq. exact Habs.
Qed.

Lemma proportional_control_never_overshoots_witness :
  let s := set_parameters 10 0 0 90 (__init__ 0) in
  reachable s /\ simulation_running s = true
  /\ ki s == 0 /\ kd s == 0 /\ 0 <= kp s /\ kp s <= 10
  /\ exists output error s',
       update_simulation 1 s = Some (output, error, s')
       /\ Qabs (wrap_error (desired_heading s' - current_heading s'))
          <= Qabs error.
Proof.
  intros s.
  assert (Hr : reachable s).
  { apply (reachable_step (SetParameters 10 0 0 90) (__init__ 0) None s
             (reachable_init 0)). reflexivity. }
  split; [exact Hr |]. split; [reflexivity |].
  split; [reflexivity |]. split; [reflexivity |].
  split; [discriminate |]. split; [discriminate |].
  exact (proportional_control_never_overshoots 1 s Hr eq_refl
           (Qeq_refl 0) (Qeq_refl 0)
           (Qle_bool_imp_le 0 10 eq_refl) (Qle_bool_imp_le 10 10 eq_refl)).
Defined.



(** ** The paused preview and the next running call *)



(** ** What the history records *)

Lemma skipn_snoc {A : Type} (k : nat) (l : list A) (x : A) :
  (k <= length l)%nat -> skipn k (l ++ [x]) = skipn k l ++ [x].
Proof.
  intros Hk. rewrite skipn_app.
  replace (k - length l)%nat with 0%nat by lia. reflexivity.
Qed.

(** cutting to the last 500 keeps the item just appended, and what it
    keeps of the rest is the end of it *)
Lemma last_n_snoc {A : Type} (l : list A) (x : A) :
  Py.last_n 500 (l ++ [x]) = skipn (length l + 1 - 500) l ++ [x].
Proof.
  unfold Py.last_n. rewrite length_app. cbn [length].
  apply skipn_snoc. lia.
Qed.

Lemma cut_snoc {A : Type} (b : bool) (l : list A) (x : A) :
  exists k, (if b then Py.last_n 500 (l ++ [x]) else l ++ [x])
            = skipn k l ++ [x].
Proof.
  destruct b.
  - eexists. apply last_n_snoc.
  - exists 0%nat. reflexivity.
Qed.

Lemma Forall_skipn_keeps {A : Type} (P : A -> Prop) (k : nat) :
  forall l, Forall P l -> Forall P (skipn k l).
Proof.
  induction k as [| k IH]; intros l H; [exact H |].
  destruct l as [| a l]; [exact H |].
  cbn [skipn]. apply IH. now inversion H.
Qed.


Lemma last_cut {A : Type} (b : bool) (l : list A) (x d : A) :
  last (if b then Py.last_n 500 (l ++ [x]) else l ++ [x]) d = x.
Proof.
  destruct (cut_snoc b l x) as (k & ->). apply last_last.
Qed.

(** X12.  Whatever the history held, the newest sample after a running
    call is the call's own: the elapsed time, the error and the output
    returned, the new heading and the setpoint; the previous error kept
    for the next call is the error returned. *)
Theorem newest_sample_is_the_call
  (now : Q) (s : SkidSteerPIDSimulator) :
  simulation_running s = true -> ~ dt s == 0 ->
  exists output error s',
    update_simulation now s = Some (output, error, s')
    /\ last (time_series s') 0 = now - start_time s
    /\ last (error_series s') 0 = error
    /\ last (output_series s') 0 = output
    /\ last (heading_series s') 0 = current_heading s'
    /\ last (desired_series s') 0 = desired_heading s
    /\ prev_error s' = error.
Proof.
  intros Hrun Hdt.
  rewrite (running_tick now s Hdt Hrun). do 3 eexists.
  split; [reflexivity |].
  cbn [time_series error_series output_series heading_series desired_series
       current_heading prev_error].
  rewrite !last_cut. repeat split.
Qed.

Lemma newest_sample_is_the_call_witness :
  let s := __init__ 0 in
  simulation_running s = true /\ ~ dt s == 0
  /\ exists output error s',
       update_simulation 1 s = Some (output, error, s')
       /\ last (time_series s') 0 = 1 - start_time s
       /\ last (error_series s') 0 = error
       /\ last (output_series s') 0 = output
       /\ last (heading_series s') 0 = current_heading s'
       /\ last (desired_series s') 0 = desired_heading s
       /\ prev_error s' = error.
Proof.
  intros s. split; [reflexivity |]. split; [discriminate |].
  exact (newest_sample_is_the_call 1 s eq_refl
           (Qeq_bool_neq (1 # 10) 0 eq_refl)).
Defined.






(** X15.  Each running call adds one sample until there are 500: after
    a run of calls on a reachable running simulator the number of
    samples is the smaller of 500 and the number before plus the number
    of calls. *)
Theorem samples_count_up_to_500 (nows : list Q) :
  forall s : SkidSteerPIDSimulator,
    reachable s -> simulation_running s = true ->
    exists rs s',
      ticks nows s = Some (rs, s')
      /\ length (time_series s')
         = Nat.min 500 (length (time_series s) + length nows).
Proof.
  unfold ticks.
  induction nows as [| now nows IH]; intros s Hr Hrun; cbn [map run step].
  - exists [], s. split; [reflexivity |].
    destruct (reachable_well_formed s Hr) as (_ & _ & _ & Hlen & _).
    cbn [length]. lia.
  - pose proof (reachable_well_formed s Hr) as Hwf.
    pose proof (running_tick now s (well_formed_dt s Hwf) Hrun) as E.
    cbv zeta in E.
    match type of E with _ = Some (?o, ?e, ?s1) =>
      assert (H1 : reachable s1)
        by (apply (reachable_step (Tick now) s (Some (o, e)) s1 Hr);
            cbn [step]; now rewrite E);
      destruct (IH s1 H1 eq_refl) as (rs & s' & E' & Hlen')
    end.
    rewrite E, E'. do 2 eexists. split; [reflexivity |].
    rewrite Hlen'. cbn [time_series length].
    destruct Hwf as (_ & _ & _ & Hlen & _).
    rewrite length_app. cbn [length]. rewrite Nat.add_1_r.
    rewrite (cut_length (length (time_series s))) by (reflexivity || lia).
    lia.
Qed.

Lemma samples_count_up_to_500_witness :
  let s := __init__ 0 in
  reachable s /\ simulation_running s = true
  /\ exists rs s',
       ticks [1; 2; 3] s = Some (rs, s')
       /\ length (time_series s')
          = Nat.min 500 (length (time_series s) + length [1; 2; 3]).
Proof.
  intros s. split; [apply reachable_init |]. split; [reflexivity |].
  exact (samples_count_up_to_500 [1; 2; 3] s (reachable_init 0) eq_refl).
Defined.

(** ** The time stamps *)

Lemma StronglySorted_skipn (k : nat) :
  forall l : list Q, StronglySorted Qle l -> StronglySorted Qle (skipn k l).
Proof.
  induction k as [| k IH]; intros l H; [exact H |].
  destruct l as [| a l]; [exact H |].
  cbn [skipn]. apply IH. now inversion H.
Qed.

Lemma StronglySorted_snoc (l : list Q) (x : Q) :
  StronglySorted Qle l -> Forall (fun y => y <= x) l ->
  StronglySorted Qle (l ++ [x]).
Proof.
  induction 1 as [| a l Hs IH Ha]; intros Hx; cbn [app].
  - repeat constructor.
  - inversion Hx as [| ? ? Hax Hlx]; subst. constructor.
    + now apply IH.
    + apply Forall_app. split; [exact Ha | now constructor].
Qed.

(** what holds of the time stamps when the latest clock reading is [t] *)
Lemma clock_step (op : Op) (t t' : Q) (s s' : SkidSteerPIDSimulator)
  (r : option (Q * Q)) :
  start_time s <= t ->
  StronglySorted Qle (time_series s) ->
  Forall (fun x => 0 <= x /\ x <= t - start_time s) (time_series s) ->
  step op s = Some (r, s') ->
  match op with
  | Tick now | Reset now => t <= now /\ t' = now
  | _ => t' = t
  end ->
  start_time s' <= t'
  /\ StronglySorted Qle (time_series s')
  /\ Forall (fun x => 0 <= x /\ x <= t' - start_time s') (time_series s').
Proof.
  intros Hst Hs Hb E Hop.
  destruct op as [p i d h | now | | now]; cbn [step] in E.
  - injection E as _ <-. subst t'. destruct s. attributes_in_hyps.
    assignments. auto.
  - injection E as _ <-. destruct Hop as [Hle ->]. destruct s. assignments.
    repeat split; try constructor. apply Qle_refl.
  - injection E as _ <-. subst t'. destruct s. attributes_in_hyps.
    assignments. auto.
  - destruct Hop as [Hle ->].
    destruct (Qeq_dec (dt s) 0) as [Hz | Hdt].
    { rewrite (update_simulation_raises now s Hz) in E. discriminate. }
    destruct (simulation_running s) eqn:Hrun.
    + rewrite (running_tick now s Hdt Hrun) in E. injection E as _ <-.
      cbn [start_time time_series].
      match goal with
      | |- context [if ?b then Py.last_n 500 (?l ++ [?x]) else _] =>
          destruct (cut_snoc b l x) as (k & ->)
      end.
      assert (Hk : Forall (fun x => 0 <= x /\ x <= t - start_time s)
                     (skipn k (time_series s)))
        by now apply Forall_skipn_keeps.
      split; [lra |]. split.
      * apply StronglySorted_snoc; [now apply StronglySorted_skipn |].
        eapply Forall_impl; [| exact Hk]. cbn beta. intros x Hx. lra.
      * apply Forall_app. split.
        -- eapply Forall_impl; [| exact Hk]. cbn beta. intros x Hx. lra.
        -- constructor; [lra | constructor].
    + rewrite (paused_tick now s Hdt Hrun) in E. injection E as _ <-.
      split; [lra |]. split; [exact Hs |].
      eapply Forall_impl; [| exact Hb]. cbn beta. intros x Hx. lra.
Qed.

Lemma clock_run (ops : list Op) :
  forall (t : Q) (s s' : SkidSteerPIDSimulator) rs,
    start_time s <= t ->
    StronglySorted Qle (time_series s) ->
    Forall (fun x => 0 <= x /\ x <= t - start_time s) (time_series s) ->
    clock_moves_on t ops ->
    run ops s = Some (rs, s') ->
    StronglySorted Qle (time_series s')
    /\ Forall (fun x => 0 <= x) (time_series s').
Proof.
  induction ops as [| op ops IH]; intros t s s' rs Hst Hs Hb Hclock E;
    cbn [run] in E.
  - injection E as _ <-. split; [exact Hs |].
    eapply Forall_impl; [| exact Hb]. cbn beta. intros x Hx. lra.
  - destruct (step op s) as [[r s1] |] eqn:E1; [| discriminate].
    destruct (run ops s1) as [[rs1 s2] |] eqn:E2; [| discriminate].
    injection E as _ <-.
    destruct op as [p i d h | now | | now]; cbn [clock_moves_on] in Hclock.
    + destruct (clock_step _ t t s s1 r Hst Hs Hb E1 eq_refl) as (A & B & C).
      exact (IH t s1 s2 rs1 A B C Hclock E2).
    + destruct Hclock as [Hle Hclock].
      destruct (clock_step _ t now s s1 r Hst Hs Hb E1 (conj Hle eq_refl))
        as (A & B & C).
      exact (IH now s1 s2 rs1 A B C Hclock E2).
    + destruct (clock_step _ t t s s1 r Hst Hs Hb E1 eq_refl) as (A & B & C).
      exact (IH t s1 s2 rs1 A B C Hclock E2).
    + destruct Hclock as [Hle Hclock].
      destruct (clock_step _ t now s s1 r Hst Hs Hb E1 (conj Hle eq_refl))
        as (A & B & C).
      exact (IH now s1 s2 rs1 A B C Hclock E2).
Qed.

(** X16.  With a clock that never goes back, whatever the driver does
    from a fresh simulator, resets included, the recorded time stamps
    are in non-decreasing order and none is negative. *)
Theorem time_stamps_in_order (t0 : Q) (ops : list Op) :
  clock_moves_on t0 ops ->
  exists rs s,
    run ops (__init__ t0) = Some (rs, s)
    /\ StronglySorted Qle (time_series s)
    /\ Forall (fun x => 0 <= x) (time_series s).
Proof.
  intros Hclock.
  destruct (run_returns ops (__init__ t0) (reachable_init t0))
    as (rs & s & E & _).
  exists rs, s. split; [exact E |].
  apply (clock_run ops t0 (__init__ t0) s rs); try assumption.
  - apply Qle_refl.
  - constructor.
  - constructor.
Qed.

Lemma time_stamps_in_order_witness :
  let ops := [Tick 1; Tick 2; PauseResume; Tick 3; Reset 4;
              PauseResume; Tick 4; Tick 6] in
  clock_moves_on 0 ops
  /\ exists rs s,
       run ops (__init__ 0) = Some (rs, s)
       /\ StronglySorted Qle (time_series s)
       /\ Forall (fun x => 0 <= x) (time_series s).
Proof.
  intros ops.
  assert (Hclock : clock_moves_on 0 ops).
  { cbn. repeat split; discriminate. }
  split; [exact Hclock |].
  exact (time_stamps_in_order 0 ops Hclock).
Defined.

(** ** The page *)

(** [main] is the call of [update_simulation] on the simulator the
    widgets leave, followed by the breakdown *)
Lemma main_unfold (c : Controls) (reset_now update_now : Q)
  (s : SkidSteerPIDSimulator) :
  main c reset_now update_now s
  = do (output, error, s') <-
      update_simulation update_now (after_controls c reset_now s) ;;
    do (p, i, d) <- pid_components s' ;;
    Some (mkPage (1 <? length (time_series s'))%nat (current_heading s')
            error output (desired_heading s') p i d
            (length (time_series s')) (last (time_series s') 0)
            (simulation_running s'),
          s').
Proof.
  reflexivity.
Qed.

(** the widgets act as operations of the driver *)
Lemma after_controls_reachable (c : Controls) (reset_now : Q)
  (s : SkidSteerPIDSimulator) :
  reachable s -> reachable (after_controls c reset_now s).
Proof.
  intros Hr. unfold after_controls. cbv zeta.
  set (s0 := set_parameters _ _ _ _ s).
  assert (H0 : reachable s0).
  { apply (reachable_step
             (SetParameters (kp_slider c) (ki_slider c) (kd_slider c)
                (desired_slider c)) s None s0 Hr). reflexivity. }
  set (s1 := if reset_button c then _ else _).
  assert (H1 : reachable s1).
  { unfold s1. destruct (reset_button c); [| exact H0].
    apply (reachable_step (Reset reset_now) s0 None _ H0). reflexivity. }
  destruct (pause_button c); [| exact H1].
  apply (reachable_step PauseResume s1 None _ H1). reflexivity.
Qed.

(** what the widgets leave of the simulator's settings *)
Lemma after_controls_settings (c : Controls) (reset_now : Q)
  (s : SkidSteerPIDSimulator) :
  let s1 := after_controls c reset_now s in
  kp s1 = kp_slider c /\ ki s1 = ki_slider c /\ kd s1 = kd_slider c
  /\ desired_heading s1 = desired_slider c
  /\ simulation_running s1 = xorb (pause_button c) (simulation_running s).
Proof.
  destruct s, c. unfold after_controls.
  cbv beta iota zeta delta [kp_slider ki_slider kd_slider desired_slider
                            reset_button pause_button].
  destruct reset_button0, pause_button0; assignments; repeat split.
Qed.

(** the breakdown returns on a simulator with a non-zero [dt] *)
Lemma pid_components_returns (s : SkidSteerPIDSimulator) :
  ~ dt s == 0 ->
  let error := wrap_error (desired_heading s - current_heading s) in
  pid_components s
  = Some (kp s * error, ki s * integral s,
          kd s * (error - prev_error s) / dt s).
Proof.
  intros Hdt. unfold pid_components. cbv zeta.
  now rewrite PyFacts.div_defined.
Qed.




(** X18.  While the simulation is paused the page adds up: the output
    shown is the clamp of the sum of the three terms shown, the
    proportional term is the slider's gain times the error shown, and
    the run leaves the simulator as the widgets left it. *)
Theorem paused_page_adds_up
  (c : Controls) (reset_now update_now : Q) (s : SkidSteerPIDSimulator) :
  reachable s -> xorb (pause_button c) (simulation_running s) = false ->
  exists page s',
    main c reset_now update_now s = Some (page, s')
    /\ s' = after_controls c reset_now s
    /\ output_metric page
       = Py.max (- max_turn_rate s')
           (Py.min (max_turn_rate s')
              (proportional page + integral_term page + derivative_term page))
    /\ proportional page = kp_slider c * error_metric page
    /\ integral_term page = ki_slider c * integral s'.
Proof.
  intros Hr Hpaused. rewrite main_unfold.
  pose proof (after_controls_reachable c reset_now s Hr) as Hr1.
  destruct (after_controls_settings c reset_now s)
    as (Hkp & Hki & _ & _ & Hrun1).
  rewrite Hpaused in Hrun1.
  pose proof (well_formed_dt _ (reachable_well_formed _ Hr1)) as Hdt.
  rewrite (paused_tick update_now _ Hdt Hrun1).
  rewrite (pid_components_returns _ Hdt).
  do 2 eexists. split; [reflexivity |].
  cbn [output_metric proportional integral_term derivative_term error_metric].
  rewrite Hkp, Hki. repeat split.
Qed.

Lemma paused_page_adds_up_witness :
  let s := __init__ 0 in
  let c := mkControls 2 (1 # 100) 0 180 false true in
  reachable s
  /\ xorb (pause_button c) (simulation_running s) = false
  /\ exists page s',
       main c 1 2 s = Some (page, s')
       /\ s' = after_controls c 1 s
       /\ output_metric page
          = Py.max (- max_turn_rate s')
              (Py.min (max_turn_rate s')
                 (proportional page + integral_term page
                  + derivative_term page))
       /\ proportional page = kp_slider c * error_metric page
       /\ integral_term page = ki_slider c * integral s'.
Proof.
  intros s c. split; [apply reachable_init |]. split; [reflexivity |].
  exact (paused_page_adds_up c 1 2 s (reachable_init 0) eq_refl).
Defined.

(** X19.  While the simulation runs the three terms shown are those of
    the heading the call has just left, not those of the output shown:
    the proportional term uses the error of the new heading, the
    derivative term the change from the error shown to that error, the
    integral term the integral the call has just updated. *)
Theorem running_page_is_one_step_ahead
  (c : Controls) (reset_now update_now : Q) (s : SkidSteerPIDSimulator) :
  reachable s -> xorb (pause_button c) (simulation_running s) = true ->
  exists page s',
    main c reset_now update_now s = Some (page, s')
    /\ heading_metric page = current_heading s'
    /\ (let error' := wrap_error (desired_metric page - heading_metric page) in
        proportional page = kp_slider c * error'
        /\ derivative_term page
           = kd_slider c * (error' - error_metric page) / dt s')
    /\ integral_term page = ki_slider c * integral s'
    /\ integral s'
       = integral (after_controls c reset_now s) + error_metric page * dt s'.
Proof.
  intros Hr Hrunning. rewrite main_unfold.
  pose proof (after_controls_reachable c reset_now s Hr) as Hr1.
  destruct (after_controls_settings c reset_now s)
    as (Hkp & Hki & Hkd & _ & Hrun1).
  rewrite Hrunning in Hrun1.
  pose proof (well_formed_dt _ (reachable_well_formed _ Hr1)) as Hdt.
  pose proof (running_tick update_now _ Hdt Hrun1) as E. cbv zeta in E.
  rewrite E.
  match type of E with _ = Some (_, _, ?s2) =>
    assert (Hdt2 : ~ dt s2 == 0) by exact Hdt;
    rewrite (pid_components_returns s2 Hdt2)
  end.
  do 2 eexists. split; [reflexivity |].
  cbn [heading_metric desired_metric proportional derivative_term
       integral_term error_metric current_heading desired_heading
       prev_error integral dt kp ki kd].
  rewrite Hkp, Hki, Hkd. repeat split.
Qed.

Lemma running_page_is_one_step_ahead_witness :
  let s := __init__ 0 in
  let c := mkControls 2 (1 # 100) 0 180 false false in
  reachable s
  /\ xorb (pause_button c) (simulation_running s) = true
  /\ exists page s',
       main c 1 2 s = Some (page, s')
       /\ heading_metric page = current_heading s'
       /\ (let error' :=
             wrap_error (desired_metric page - heading_metric page) in
           proportional page = kp_slider c * error'
           /\ derivative_term page
              = kd_slider c * (error' - error_metric page) / dt s')
       /\ integral_term page = ki_slider c * integral s'
       /\ integral s'
          = integral (after_controls c 1 s) + error_metric page * dt s'.
Proof.
  intros s c. split; [apply reachable_init |]. split; [reflexivity |].
  exact (running_page_is_one_step_ahead c 1 2 s (reachable_init 0) eq_refl).
Defined.

(** what the Reset button leaves *)
Lemma after_controls_reset (c : Controls) (reset_now : Q)
  (s : SkidSteerPIDSimulator) :
  reset_button c = true ->
  let s1 := after_controls c reset_now s in
  current_heading s1 = 0 /\ integral s1 = 0 /\ prev_error s1 = 0
  /\ start_time s1 = reset_now /\ time_series s1 = [].
Proof.
  destruct s, c. unfold after_controls.
  cbv beta iota zeta delta [kp_slider ki_slider kd_slider desired_slider
                            reset_button pause_button].
  intros ->. destruct pause_button0; assignments; repeat split.
Qed.

(** X20.  A run in which Reset is pressed and which ends running starts
    the history afresh: it holds this run's sample alone, at the time
    elapsed since the reset, so the page counts one data point and does
    not draw the chart; the error shown is the wrapped error from
    heading 0 to the slider's setpoint. *)
Theorem reset_run_starts_afresh
  (c : Controls) (reset_now update_now : Q) (s : SkidSteerPIDSimulator) :
  reachable s -> reset_button c = true ->
  xorb (pause_button c) (simulation_running s) = true ->
  exists page s',
    main c reset_now update_now s = Some (page, s')
    /\ time_series s' = [update_now - reset_now]
    /\ data_points page = 1%nat
    /\ plot_drawn page = false
    /\ simulation_time page = update_now - reset_now
    /\ error_metric page = wrap_error (desired_slider c - 0)
    /\ integral s' = 0 + error_metric page * dt s'.
Proof.
  intros Hr Hreset Hrunning. rewrite main_unfold.
  pose proof (after_controls_reachable c reset_now s Hr) as Hr1.
  destruct (after_controls_settings c reset_now s)
    as (_ & _ & _ & Hd & Hrun1).
  destruct (after_controls_reset c reset_now s Hreset)
    as (Hh & Hi & _ & Hst & Hts).
  rewrite Hrunning in Hrun1.
  pose proof (well_formed_dt _ (reachable_well_formed _ Hr1)) as Hdt.
  pose proof (running_tick update_now _ Hdt Hrun1) as E. cbv zeta in E.
  rewrite E.
  match type of E with _ = Some (_, _, ?s2) =>
    assert (Hdt2 : ~ dt s2 == 0) by exact Hdt;
    rewrite (pid_components_returns s2 Hdt2)
  end.
  do 2 eexists. split; [reflexivity |].
  cbn [time_series data_points plot_drawn simulation_time error_metric
       integral dt].
  rewrite Hh, Hi, Hst, Hts, Hd. cbn [app length Nat.ltb Nat.leb last].
  repeat split.
Qed.

Lemma reset_run_starts_afresh_witness :
  let s := __init__ 0 in
  let c := mkControls 2 (1 # 100) 0 180 true false in
  reachable s /\ reset_button c = true
  /\ xorb (pause_button c) (simulation_running s) = true
  /\ exists page s',
       main c 1 2 s = Some (page, s')
       /\ time_series s' = [2 - 1]
       /\ data_points page = 1%nat
       /\ plot_drawn page = false
       /\ simulation_time page = 2 - 1
       /\ error_metric page = wrap_error (desired_slider c - 0)
       /\ integral s' = 0 + error_metric page * dt s'.
Proof.
  intros s c. split; [apply reachable_init |]. split; [reflexivity |].
  split; [reflexivity |].
  exact (reset_run_starts_afresh c 1 2 s (reachable_init 0) eq_refl eq_refl).
Defined.
